(** * guillotina: the PostgreSQL storage engine (guillotina/db/storages/pg.py)

    A shallow embedding of [PostgresqlStorage]: the SQL statement catalogue,
    the write protocol of [store], conflict detection, annotation reads, blob
    streaming and the recovery of a broken connection pool.

    The database driver (asyncpg), the clock, the logger and the cache are the
    environment of the engine.  Every call the engine makes to them is recorded
    in a history, and the driver answers as a function of the calls it has
    received so far, so that a statement about the engine holds for every
    database behaviour. *)

From Stdlib Require Import ZArith NArith Floats DecimalString Bool.
From stdpp Require Import gmap strings list fin_maps.

Local Open Scope string_scope.
Local Open Scope list_scope.
Local Open Scope Z_scope.

(** ** Python strings *)

(** [needle in s] on Python strings. *)
Fixpoint contains (needle s : string) : bool :=
  String.prefix needle s ||
  match s with
  | EmptyString => false
  | String _ rest => contains needle rest
  end.

(** [x in (a, b, c)] on a tuple of strings: equality with one of the members. *)
Definition in_tuple (x : string) (members : list string) : bool :=
  existsb (String.eqb x) members.

(** [str(n)] for a Python int. *)
Definition str_of_int (z : Z) : string := NilZero.string_of_int (Z.to_int z).

Definition str_of_nat (n : nat) : string := str_of_int (Z.of_nat n).

(** The line break inside Python's triple-quoted literals. *)
Definition nl : string := String (Ascii.ascii_of_nat 10) EmptyString.

(** [template.format(table_name=value)] for a template whose only replacement
    field is [{table_name}]: every occurrence of the field is replaced.
    [skip] counts the characters of a field that is being consumed. *)
Fixpoint format_fields (field value : string) (skip : nat) (template : string)
  : string :=
  match template with
  | EmptyString => EmptyString
  | String c rest =>
      match skip with
      | S k => format_fields field value k rest
      | O =>
          if String.prefix field template
          then value +:+ format_fields field value (String.length field - 1)%nat rest
          else String c (format_fields field value 0 rest)
      end
  end.

Definition format_table_name (template table_name : string) : string :=
  format_fields "{table_name}" table_name 0 template.

(** ** Constants of the repository used by the storage

    [MAX_OID_LENGTH] (guillotina.db.oid), [TRASHED_ID] (guillotina.db) and the
    application setting [pg_connection_class] are imported by the storage
    module; they are taken as parameters. *)
Class Constants := {
  MAX_OID_LENGTH : Z;
  TRASHED_ID : string;
  pg_connection_class : string
}.

(** ** The SQL statement catalogue *)

Section Catalogue.
Context {constants : Constants}.

Definition _wrap_return_count (txt : string) : string :=
  "WITH rows AS (
" +:+ txt +:+ "
    RETURNING 1
)
SELECT count(*) FROM rows".

(** upsert without checking matching tids on updated object *)
Definition NAIVE_UPSERT : string := "
INSERT INTO {table_name}
(zoid, tid, state_size, part, resource, of, otid, parent_id, id, type, json, state)
VALUES ($1::varchar(" +:+ str_of_int MAX_OID_LENGTH +:+ "), $2::int, $3::int, $4::int, $5::boolean,
        $6::varchar(" +:+ str_of_int MAX_OID_LENGTH +:+ "), $7::int, $8::varchar(" +:+ str_of_int MAX_OID_LENGTH +:+ "),
        $9::text, $10::text, $11::json, $12::bytea)
ON CONFLICT (zoid)
DO UPDATE SET
    tid = EXCLUDED.tid,
    state_size = EXCLUDED.state_size,
    part = EXCLUDED.part,
    resource = EXCLUDED.resource,
    of = EXCLUDED.of,
    otid = EXCLUDED.otid,
    parent_id = EXCLUDED.parent_id,
    id = EXCLUDED.id,
    type = EXCLUDED.type,
    json = EXCLUDED.json,
    state = EXCLUDED.state".

(** update without checking matching tids on updated object *)
Definition NAIVE_UPDATE : string := "
UPDATE {table_name}
SET
    tid = $2::int,
    state_size = $3::int,
    part = $4::int,
    resource = $5::boolean,
    of = $6::varchar(" +:+ str_of_int MAX_OID_LENGTH +:+ "),
    otid = $7::int,
    parent_id = $8::varchar(" +:+ str_of_int MAX_OID_LENGTH +:+ "),
    id = $9::text,
    type = $10::text,
    json = $11::json,
    state = $12::bytea
WHERE
    zoid = $1::varchar(" +:+ str_of_int MAX_OID_LENGTH +:+ ")".

Definition NEXT_TID : string := "SELECT nextval('tid_sequence');".

Definition MAX_TID : string := "SELECT last_value FROM tid_sequence;".

Definition TXN_CONFLICTS : string := "
    SELECT zoid, tid, state_size, resource, type, id
    FROM {table_name}
    WHERE tid > $1".

(** The [register_sql] calls of the module, in the order they are executed. *)
Definition registrations : list (string * string) := [
    ("GET_OID", "
SELECT zoid, tid, state_size, resource, of, parent_id, id, type, state
FROM {table_name}
WHERE zoid = $1::varchar(" +:+ str_of_int MAX_OID_LENGTH +:+ ")
");
    ("GET_CHILDREN_KEYS", "
SELECT id
FROM {table_name}
WHERE parent_id = $1::varchar(" +:+ str_of_int MAX_OID_LENGTH +:+ ")
");
    ("GET_ANNOTATIONS_KEYS", "
SELECT id, parent_id
FROM {table_name}
WHERE of = $1::varchar(" +:+ str_of_int MAX_OID_LENGTH +:+ ")
");
    ("GET_CHILD", "
SELECT zoid, tid, state_size, resource, type, state, id
FROM {table_name}
WHERE parent_id = $1::varchar(" +:+ str_of_int MAX_OID_LENGTH +:+ ") AND id = $2::text
");
    ("GET_CHILDREN_BATCH", "
SELECT zoid, tid, state_size, resource, type, state, id
FROM {table_name}
WHERE parent_id = $1::varchar(" +:+ str_of_int MAX_OID_LENGTH +:+ ") AND id = ANY($2)
");
    ("EXIST_CHILD", "
SELECT zoid
FROM {table_name}
WHERE parent_id = $1::varchar(" +:+ str_of_int MAX_OID_LENGTH +:+ ") AND id = $2::text
");
    ("HAS_OBJECT", "
SELECT zoid
FROM {table_name}
WHERE zoid = $1::varchar(" +:+ str_of_int MAX_OID_LENGTH +:+ ")
");
    ("GET_ANNOTATION", "
SELECT zoid, tid, state_size, resource, type, state, id, parent_id
FROM {table_name}
WHERE
    of = $1::varchar(" +:+ str_of_int MAX_OID_LENGTH +:+ ") AND
    id = $2::text
");
    ("UPSERT", _wrap_return_count (NAIVE_UPSERT +:+ "
WHERE
    tid = EXCLUDED.otid"));
    ("NAIVE_UPSERT", _wrap_return_count (NAIVE_UPSERT));
    ("UPDATE", _wrap_return_count (NAIVE_UPDATE +:+ " AND tid = $7::int"));
    ("NAIVE_UPDATE", _wrap_return_count (NAIVE_UPDATE));
    ("NUM_CHILDREN", "SELECT count(*) FROM {table_name} WHERE parent_id = $1::varchar(" +:+ str_of_int MAX_OID_LENGTH +:+ ")");
    ("NUM_ROWS", "SELECT count(*) FROM {table_name}");
    ("NUM_RESOURCES", "SELECT count(*) FROM {table_name} WHERE resource is TRUE");
    ("NUM_RESOURCES_BY_TYPE", "SELECT count(*) FROM {table_name} WHERE type=$1::TEXT");
    ("RESOURCES_BY_TYPE", "
SELECT zoid, tid, state_size, resource, type, state, id
FROM {table_name}
WHERE type=$1::TEXT
ORDER BY zoid
LIMIT $2::int
OFFSET $3::int
");
    ("GET_CHILDREN", "
SELECT zoid, tid, state_size, resource, type, state, id
FROM {table_name}
WHERE parent_id = $1::VARCHAR(" +:+ str_of_int MAX_OID_LENGTH +:+ ")
");
    ("TRASH_PARENT_ID", "
UPDATE {table_name}
SET
    parent_id = '" +:+ TRASHED_ID +:+ "'
WHERE
    zoid = $1::varchar(" +:+ str_of_int MAX_OID_LENGTH +:+ ")
");
    ("INSERT_BLOB_CHUNK", "
INSERT INTO {table_name}
(bid, zoid, chunk_index, data)
VALUES ($1::VARCHAR(" +:+ str_of_int MAX_OID_LENGTH +:+ "), $2::VARCHAR(" +:+ str_of_int MAX_OID_LENGTH +:+ "),
        $3::INT, $4::BYTEA)
");
    ("READ_BLOB_CHUNK", "
SELECT * from {table_name}
WHERE bid = $1::VARCHAR(" +:+ str_of_int MAX_OID_LENGTH +:+ ")
AND chunk_index = $2::int
");
    ("DELETE_BLOB", "
DELETE FROM {table_name} WHERE bid = $1::VARCHAR(" +:+ str_of_int MAX_OID_LENGTH +:+ ");
");
    ("TXN_CONFLICTS", TXN_CONFLICTS);
    ("TXN_CONFLICTS_ON_OIDS", TXN_CONFLICTS +:+ " AND zoid = ANY($2)");
    ("BATCHED_GET_CHILDREN_KEYS", "
SELECT id
FROM {table_name}
WHERE parent_id = $1::varchar(" +:+ str_of_int MAX_OID_LENGTH +:+ ")
ORDER BY zoid
LIMIT $2::int
OFFSET $3::int
");
    ("DELETE_OBJECT", "
DELETE FROM {table_name}
WHERE zoid = $1::varchar(" +:+ str_of_int MAX_OID_LENGTH +:+ ");
");
    ("GET_TRASHED_OBJECTS", "
SELECT zoid from {table_name} where parent_id = '" +:+ TRASHED_ID +:+ "';
");
    ("CREATE_TRASH", "
INSERT INTO {table_name} (zoid, tid, state_size, part, resource, type)
SELECT '" +:+ TRASHED_ID +:+ "', 0, 0, 0, FALSE, 'TRASH_REF'
WHERE NOT EXISTS (SELECT * FROM {table_name} WHERE zoid = '" +:+ TRASHED_ID +:+ "')
RETURNING id;
")
  ].

(** Modelled from the spec: [register_sql] and [SQLStatements.get] live in
    guillotina.db.storages.utils.  The catalogue is a mapping from statement
    name to a template with [{table_name}] holes; [get(name, table)] returns
    the template materialized against the table name. *)
Definition register_sql (name sql : string) (statements : gmap string string)
  : gmap string string :=
  <[name := sql]> statements.

Definition _sql_statements : gmap string string :=
  foldl (λ statements entry, register_sql entry.1 entry.2 statements)
        ∅ registrations.

Definition sql_get (name table_name : string) : option string :=
  (λ template, format_table_name template table_name) <$> _sql_statements !! name.

End Catalogue.

(** ** Values, rows and the objects the engine is handed *)

(** Python values that travel to and from the driver. *)
Inductive value :=
| VNone
| VBool (b : bool)
| VInt (z : Z)
| VStr (s : string)
| VBytes (b : list Byte.byte)
| VStrList (l : list string).

Fixpoint bytes_eqb (x y : list Byte.byte) : bool :=
  match x, y with
  | [], [] => true
  | a :: x', b :: y' => Byte.eqb a b && bytes_eqb x' y'
  | _, _ => false
  end.

(** [a == b] on those values: [bool] is a subclass of [int], every other
    pair of different types is unequal. *)
Definition py_eq (a b : value) : bool :=
  match a, b with
  | VNone, VNone => true
  | VBool x, VBool y => Bool.eqb x y
  | VBool x, VInt z | VInt z, VBool x => Z.eqb (Z.b2z x) z
  | VInt x, VInt y => Z.eqb x y
  | VStr x, VStr y => String.eqb x y
  | VBytes x, VBytes y => bytes_eqb x y
  | VStrList x, VStrList y => bool_decide (x = y)
  | _, _ => false
  end.

Definition of_optional {A} (inj : A → value) (o : option A) : value :=
  match o with
  | Some a => inj a
  | None => VNone
  end.

(** An asyncpg [Record]: the columns of a result row, by name. *)
Definition row : Type := list (string * value).

Fixpoint row_get (r : row) (column : string) : option value :=
  match r with
  | [] => None
  | (c, v) :: rest => if String.eqb c column then Some v else row_get rest column
  end.

(** A JSON document, identified with the text [ujson.dumps] gives for it. *)
Inductive json_dict := JsonDict (text : string).

Definition ujson_dumps (d : json_dict) : string :=
  match d with JsonDict text => text end.

(** The writer interface: [serialize()], [get_json()] and the attributes
    [store] reads. *)
Module Writer.
Record t := mk {
  serialize : list Byte.byte;
  get_json : json_dict;
  part : option Z;
  resource : bool;
  of_ : option string;
  parent_id : option string;
  id : option string;
  type : string
}.
End Writer.

(** A persistent object, as far as the storage looks at it. *)
Record Obj := {
  __class__ : string;
  __new_marker__ : bool;
  _p_serial : option Z;
  _p_oid : string
}.

(** ** Exceptions *)

Inductive exn :=
| AssertionError
| AttributeError (msg : string)
| KeyError (key : string)
| TimeoutError
    (* asyncio.TimeoutError *)
| InterfaceError (msg : string)
    (* asyncpg.exceptions.InterfaceError with neither detail nor hint:
       [str(ex)] and [ex.args[0]] are both [msg] *)
| UniqueViolationError (detail : string)
| ForeignKeyViolationError
| DeadlockDetectedError
| OtherError (name : string)
    (* any exception the storage has no handler for *)
| ConflictError (msg : string) (context : option (string * option Z * Writer.t))
| TIDConflictError (msg : string) (oid : string) (old_serial : option Z)
                   (writer : Writer.t)
| ConflictIdOnContainer (cause : exn).

(** ** Driver handles *)

Record Pool := { pool_id : nat; _loop : option nat }.

Record Connection := { conn_id : nat }.

(** What [conn.prepare(query)] returns. *)
Record PreparedStatement := { stmt_conn : Connection; stmt_query : string }.

(** The arguments of [asyncpg.create_pool]. *)
Record pool_args := {
  dsn : option string;
  max_size : Z;
  min_size : Z;
  loop : option nat;
  connection_class : string;
  kw : list (string * value)
}.

(** ** The history of a run *)

Inductive log_level := INFO | WARNING | ERROR.

Inductive lock_name := StorageLock | TransactionLock.

Inductive event :=
| EvLog (level : log_level) (msg : string)
| EvLockAcquire (l : lock_name)
| EvLockRelease (l : lock_name)
| EvCacheStoreObject (obj : Obj) (pickled : list Byte.byte)
| EvTime
| EvCreatePool (args : pool_args)
| EvPoolClose (p : Pool) (timeout : float)
| EvPoolTerminate (p : Pool)
| EvPoolAcquire (p : Pool) (timeout : Z)
| EvFetch (c : Connection) (sql : string) (args : list value)
| EvFetchrow (c : Connection) (sql : string) (args : list value)
| EvCursor (c : Connection) (sql : string) (args : list value)
| EvPrepare (c : Connection) (sql : string)
| EvStmtFetchrow (s : PreparedStatement) (args : list value)
| EvStmtFetchval (s : PreparedStatement).

(** The events that leave the process: calls to the driver and readings of
    the clock.  Log records, lock operations and cache notifications stay
    inside. *)
Definition is_call (ev : event) : bool :=
  match ev with
  | EvLog _ _ | EvLockAcquire _ | EvLockRelease _ | EvCacheStoreObject _ _ => false
  | _ => true
  end.

Definition calls (history : list event) : list event :=
  List.filter is_call history.

(** ** The environment

    What the driver and the clock answer, given the calls made so far. *)
Inductive result (A : Type) :=
| Ok (a : A)
| Err (e : exn).
Arguments Ok {A} _.
Arguments Err {A} _.

Class Backend := {
  time_time : list event → float;
  create_pool : list event → pool_args → result Pool;
  pool_close : list event → Pool → float → result unit;
  pool_acquire : list event → Pool → Z → result Connection;
  conn_fetch : list event → Connection → string → list value → result (list row);
  conn_fetchrow : list event → Connection → string → list value → result (option row);
  conn_cursor : list event → Connection → string → list value → result (list row);
  conn_prepare : list event → Connection → string → result PreparedStatement;
  stmt_fetchrow : list event → PreparedStatement → list value → result (option row);
  stmt_fetchval : list event → PreparedStatement → result value
}.

(** ** The storage object, the transaction handle and the state of a run *)

Record PostgresqlStorage := {
  _dsn : option string;
  _pool_size : Z;
  _pool : option Pool;
  _read_conn : option Connection;
  _lock : bool;
    (* the asyncio.Lock of the storage: [true] while it is held *)
  _conn_acquire_timeout : Z;
  _connection_options : list (string * value);
  _connection_initialized_on : float;
  _objects_table_name : string;
  _blobs_table_name : string;
  _stmt_next_tid : option PreparedStatement;
  _stmt_max_tid : option PreparedStatement
}.

Definition _large_record_size : Z := Z.shiftl 1 24.

(** how long to wait before trying to recover bad connections *)
Definition BAD_CONNECTION_RESTART_DELAY : float := 0.25%float.

(** Modelled from the spec: the transaction handle is implemented outside the
    storage module.  It carries [_tid], the maps [modified] and [deleted]
    from oid to object, its own lock and its session [_db_conn], which
    [get_connection()] hands out. *)
Module Transaction.
Record t := mk {
  _tid : Z;
  modified : gmap string Obj;
  deleted : gmap string Obj;
  _lock : bool;
  _db_conn : Connection
}.
End Transaction.

Record state := {
  self : PostgresqlStorage;
  txn : Transaction.t;
  history : list event
}.

Definition set_self (f : PostgresqlStorage → PostgresqlStorage) (st : state) : state :=
  {| self := f (self st); txn := txn st; history := history st |}.

Definition set_txn (f : Transaction.t → Transaction.t) (st : state) : state :=
  {| self := self st; txn := f (txn st); history := history st |}.

Definition record_event (ev : event) (st : state) : state :=
  {| self := self st; txn := txn st; history := history st ++ [ev] |}.

Definition with_pool (p : option Pool) (s : PostgresqlStorage) : PostgresqlStorage :=
  {| _dsn := _dsn s; _pool_size := _pool_size s; _pool := p;
     _read_conn := _read_conn s; _lock := _lock s;
     _conn_acquire_timeout := _conn_acquire_timeout s;
     _connection_options := _connection_options s;
     _connection_initialized_on := _connection_initialized_on s;
     _objects_table_name := _objects_table_name s;
     _blobs_table_name := _blobs_table_name s;
     _stmt_next_tid := _stmt_next_tid s; _stmt_max_tid := _stmt_max_tid s |}.

Definition with_read_conn (c : option Connection) (s : PostgresqlStorage)
  : PostgresqlStorage :=
  {| _dsn := _dsn s; _pool_size := _pool_size s; _pool := _pool s;
     _read_conn := c; _lock := _lock s;
     _conn_acquire_timeout := _conn_acquire_timeout s;
     _connection_options := _connection_options s;
     _connection_initialized_on := _connection_initialized_on s;
     _objects_table_name := _objects_table_name s;
     _blobs_table_name := _blobs_table_name s;
     _stmt_next_tid := _stmt_next_tid s; _stmt_max_tid := _stmt_max_tid s |}.

Definition with_lock_held (held : bool) (s : PostgresqlStorage) : PostgresqlStorage :=
  {| _dsn := _dsn s; _pool_size := _pool_size s; _pool := _pool s;
     _read_conn := _read_conn s; _lock := held;
     _conn_acquire_timeout := _conn_acquire_timeout s;
     _connection_options := _connection_options s;
     _connection_initialized_on := _connection_initialized_on s;
     _objects_table_name := _objects_table_name s;
     _blobs_table_name := _blobs_table_name s;
     _stmt_next_tid := _stmt_next_tid s; _stmt_max_tid := _stmt_max_tid s |}.

Definition with_connection_initialized_on (t : float) (s : PostgresqlStorage)
  : PostgresqlStorage :=
  {| _dsn := _dsn s; _pool_size := _pool_size s; _pool := _pool s;
     _read_conn := _read_conn s; _lock := _lock s;
     _conn_acquire_timeout := _conn_acquire_timeout s;
     _connection_options := _connection_options s;
     _connection_initialized_on := t;
     _objects_table_name := _objects_table_name s;
     _blobs_table_name := _blobs_table_name s;
     _stmt_next_tid := _stmt_next_tid s; _stmt_max_tid := _stmt_max_tid s |}.

Definition with_stmt_next_tid (p : option PreparedStatement) (s : PostgresqlStorage)
  : PostgresqlStorage :=
  {| _dsn := _dsn s; _pool_size := _pool_size s; _pool := _pool s;
     _read_conn := _read_conn s; _lock := _lock s;
     _conn_acquire_timeout := _conn_acquire_timeout s;
     _connection_options := _connection_options s;
     _connection_initialized_on := _connection_initialized_on s;
     _objects_table_name := _objects_table_name s;
     _blobs_table_name := _blobs_table_name s;
     _stmt_next_tid := p; _stmt_max_tid := _stmt_max_tid s |}.

Definition with_stmt_max_tid (p : option PreparedStatement) (s : PostgresqlStorage)
  : PostgresqlStorage :=
  {| _dsn := _dsn s; _pool_size := _pool_size s; _pool := _pool s;
     _read_conn := _read_conn s; _lock := _lock s;
     _conn_acquire_timeout := _conn_acquire_timeout s;
     _connection_options := _connection_options s;
     _connection_initialized_on := _connection_initialized_on s;
     _objects_table_name := _objects_table_name s;
     _blobs_table_name := _blobs_table_name s;
     _stmt_next_tid := _stmt_next_tid s; _stmt_max_tid := p |}.

Definition with_txn_lock_held (held : bool) (t : Transaction.t) : Transaction.t :=
  {| Transaction._tid := Transaction._tid t;
     Transaction.modified := Transaction.modified t;
     Transaction.deleted := Transaction.deleted t;
     Transaction._lock := held;
     Transaction._db_conn := Transaction._db_conn t |}.

Definition with_deleted (d : gmap string Obj) (t : Transaction.t) : Transaction.t :=
  {| Transaction._tid := Transaction._tid t;
     Transaction.modified := Transaction.modified t;
     Transaction.deleted := d;
     Transaction._lock := Transaction._lock t;
     Transaction._db_conn := Transaction._db_conn t |}.

Definition locked (l : lock_name) (st : state) : bool :=
  match l with
  | StorageLock => _lock (self st)
  | TransactionLock => Transaction._lock (txn st)
  end.

Definition set_locked (l : lock_name) (held : bool) (st : state) : state :=
  match l with
  | StorageLock => set_self (with_lock_held held) st
  | TransactionLock => set_txn (with_txn_lock_held held) st
  end.

(** ** Coroutines

    A coroutine maps the state before it runs to an outcome and the state
    after.  [Blocked] is a coroutine waiting for a lock that its own task
    holds: an asyncio.Lock is not reentrant, so the wait never ends.
    [OutOfFuel] is the bound on the mutual recursion of [open],
    [_check_bad_connection] and [restart_connection]. *)
Inductive outcome (A : Type) :=
| Returned (a : A)
| Raised (e : exn)
| Blocked
| OutOfFuel.
Arguments Returned {A} _.
Arguments Raised {A} _.
Arguments Blocked {A}.
Arguments OutOfFuel {A}.

Record M (A : Type) := Run { run : state → outcome A * state }.
Arguments Run {A} _.
Arguments run {A} _ _.

#[global] Instance M_ret : MRet M := λ A a, Run (λ st, (Returned a, st)).

#[global] Instance M_bind : MBind M := λ A B f m,
  Run (λ st,
    match run m st with
    | (Returned a, st') => run (f a) st'
    | (Raised e, st') => (Raised e, st')
    | (Blocked, st') => (Blocked, st')
    | (OutOfFuel, st') => (OutOfFuel, st')
    end).

Definition raise {A} (e : exn) : M A := Run (λ st, (Raised e, st)).

Definition out_of_fuel {A} : M A := Run (λ st, (OutOfFuel, st)).

Definition get_state : M state := Run (λ st, (Returned st, st)).

Definition modify (f : state → state) : M unit := Run (λ st, (Returned tt, f st)).

Definition emit (ev : event) : M unit := modify (record_event ev).

Definition log (level : log_level) (msg : string) : M unit := emit (EvLog level msg).

(** A call to the environment: the answer depends on the calls made so far,
    and the call joins the history. *)
Definition call {A} (ev : event) (answer : list event → result A) : M A :=
  Run (λ st,
    match answer (calls (history st)) with
    | Ok a => (Returned a, record_event ev st)
    | Err e => (Raised e, record_event ev st)
    end).

(** [try: body except ...]: [handler ex] is the clause that catches [ex],
    if there is one. *)
Definition try_except {A} (body : M A) (handler : exn → option (M A)) : M A :=
  Run (λ st,
    match run body st with
    | (Raised ex, st') =>
        match handler ex with
        | Some clause => run clause st'
        | None => (Raised ex, st')
        end
    | other => other
    end).

(** [async with lock: body].  The lock is released when the body returns or
    raises. *)
Definition async_with (l : lock_name) {A} (body : M A) : M A :=
  Run (λ st,
    if locked l st then (Blocked, st)
    else
      let release st' := record_event (EvLockRelease l) (set_locked l false st') in
      match run body (record_event (EvLockAcquire l) (set_locked l true st)) with
      | (Returned a, st') => (Returned a, release st')
      | (Raised e, st') => (Raised e, release st')
      | other => other
      end).

(** Attribute access on a value that may be [None]. *)
Definition attribute {A} (o : option A) (name : string) : M A :=
  match o with
  | Some a => mret a
  | None => raise (AttributeError ("'NoneType' object has no attribute '" +:+ name +:+ "'"))
  end.

(** [record[column]] *)
Definition getitem (r : row) (column : string) : M value :=
  match row_get r column with
  | Some v => mret v
  | None => raise (KeyError column)
  end.

(** ** The storage methods *)

Section Storage.
Context {constants : Constants} {pg : Backend}.

(** [self._sql.get(name, table_name)]; an unregistered name is a [KeyError]. *)
Definition _sql_get (name table_name : string) : M string :=
  match sql_get name table_name with
  | Some sql => mret sql
  | None => raise (KeyError name)
  end.

(** Modelled from the spec: [txn.get_connection()] hands out the session of
    the transaction. *)
Definition get_connection : M Connection :=
  st ← get_state; mret (Transaction._db_conn (txn st)).

(** Modelled from the spec: [txn._cache.store_object(obj, pickled)], the
    notification of the cache. *)
Definition store_object (obj : Obj) (pickled : list Byte.byte) : M unit :=
  emit (EvCacheStoreObject obj pickled).

Definition get_pool (loop : option nat) (kw : list (string * value)) : M Pool :=
  st ← get_state;
  match _pool (self st) with
  | Some pool => mret pool
  | None =>
      let args := {| dsn := _dsn (self st); max_size := _pool_size (self st);
                     min_size := 2; connection_class := pg_connection_class;
                     loop := loop; kw := kw |} in
      pool ← call (EvCreatePool args) (λ h, create_pool h args);
      modify (set_self (with_pool (Some pool)));;
      mret pool
  end.

Definition initialize_tid_statements : M unit :=
  st ← get_state;
  conn ← attribute (_read_conn (self st)) "prepare";
  stmt ← call (EvPrepare conn NEXT_TID) (λ h, conn_prepare h conn NEXT_TID);
  modify (set_self (with_stmt_next_tid (Some stmt)));;
  st ← get_state;
  conn ← attribute (_read_conn (self st)) "prepare";
  stmt ← call (EvPrepare conn MAX_TID) (λ h, conn_prepare h conn MAX_TID);
  modify (set_self (with_stmt_max_tid (Some stmt))).

(** [restart_connection], [_check_bad_connection] and [open] call each
    other.  Each body is written against the method it calls; the knot is
    tied below. *)
Definition restart_connection_with (open : M (option Connection)) (timeout : float)
  : M unit :=
  log ERROR "Connection potentially lost to pg, restarting";;
  pool ← get_pool None [];
  try_except
    (call (EvPoolClose pool timeout) (λ h, pool_close h pool timeout))
    (λ ex, match ex with
           | TimeoutError => Some (mret tt)
           | _ => None
           end);;
  emit (EvPoolTerminate pool);;
  (* re-bind, throw conflict error so the request is restarted... *)
  st ← get_state;
  old ← attribute (_pool (self st)) "_loop";
  let args := {| dsn := _dsn (self st); max_size := _pool_size (self st);
                 min_size := 2; loop := _loop old;
                 connection_class := pg_connection_class;
                 kw := _connection_options (self st) |} in
  pool ← call (EvCreatePool args) (λ h, create_pool h args);
  modify (set_self (with_pool (Some pool)));;
  (* shared read connection on all transactions *)
  conn ← open;
  modify (set_self (with_read_conn conn));;
  initialize_tid_statements;;
  now ← call EvTime (λ h, Ok (time_time h));
  modify (set_self (with_connection_initialized_on now));;
  raise (ConflictError "Restarting connection to postgresql" None).

(** [str(ex)] *)
Definition str_exn (ex : exn) : string :=
  match ex with
  | InterfaceError msg | AttributeError msg | OtherError msg
  | ConflictError msg _ | TIDConflictError msg _ _ _ => msg
  | KeyError key => "'" +:+ key +:+ "'"
  | UniqueViolationError _ | ForeignKeyViolationError | DeadlockDetectedError
  | AssertionError | TimeoutError | ConflictIdOnContainer _ => ""
  end.

(** The tuple of messages [_check_bad_connection] looks [str(ex)] up in. *)
Definition bad_connection_messages : list string :=
  ["cannot perform operation: connection is closed";
   "connection is closed"; "pool is closed"].

Definition _check_bad_connection_with (restart_connection : M unit) (ex : exn)
  : M unit :=
  if in_tuple (str_exn ex) bad_connection_messages
  then
    now ← call EvTime (λ h, Ok (time_time h));
    st ← get_state;
    if PrimFloat.ltb BAD_CONNECTION_RESTART_DELAY
         (PrimFloat.sub now (_connection_initialized_on (self st)))
    then
      (* we need to make sure we aren't calling this over and over again *)
      restart_connection
    else mret tt
  else mret tt.

Definition open_with (_check_bad_connection : exn → M unit)
  : M (option Connection) :=
  pool ← get_pool None [];
  st ← get_state;
  let timeout := _conn_acquire_timeout (self st) in
  try_except
    (conn ← call (EvPoolAcquire pool timeout) (λ h, pool_acquire h pool timeout);
     mret (Some conn))
    (λ ex, match ex with
           | InterfaceError _ =>
               Some (async_with StorageLock (_check_bad_connection ex);;
                     mret None)
           | _ => None
           end).

(** The default [timeout=0.1] of [restart_connection]: the binary64 value
    closest to one tenth. *)
Definition default_restart_timeout : float := 0x1.999999999999ap-4%float.

Fixpoint open (fuel : nat) : M (option Connection) :=
  match fuel with
  | O => out_of_fuel
  | S fuel' =>
      open_with
        (_check_bad_connection_with
           (restart_connection_with (open fuel') default_restart_timeout))
  end.

Definition restart_connection (fuel : nat) (timeout : float) : M unit :=
  restart_connection_with (open fuel) timeout.

Definition _check_bad_connection (fuel : nat) (ex : exn) : M unit :=
  _check_bad_connection_with (restart_connection fuel default_restart_timeout) ex.

Definition get_next_tid (fuel : nat) : M value :=
  async_with StorageLock
    (* we do not use transaction lock here but a storage lock because
       a storage object has a shard conn for reads *)
    (try_except
       (st ← get_state;
        stmt ← attribute (_stmt_next_tid (self st)) "fetchval";
        call (EvStmtFetchval stmt) (λ h, stmt_fetchval h stmt))
       (λ ex, match ex with
              | InterfaceError _ =>
                  Some (_check_bad_connection fuel ex;; raise ex)
              | _ => None
              end)).

Definition store_args (oid : string) (tid : Z) (old_serial : option Z)
    (writer : Writer.t) : list value :=
  let pickled := Writer.serialize writer in
  [ VStr oid;                                      (* The OID of the object *)
    VInt tid;                                      (* Our TID *)
    VInt (Z.of_nat (length pickled));              (* Len of the object *)
    VInt (default 0 (Writer.part writer));         (* Partition indicator *)
    VBool (Writer.resource writer);                (* Is a resource ? *)
    of_optional VStr (Writer.of_ writer);          (* It belogs to a main *)
    of_optional VInt old_serial;                   (* Old serial *)
    of_optional VStr (Writer.parent_id writer);    (* Parent OID *)
    of_optional VStr (Writer.id writer);           (* Traversal ID *)
    VStr (Writer.type writer);                     (* Guillotina type *)
    VStr (ujson_dumps (Writer.get_json writer));   (* JSON catalog *)
    VBytes pickled ].                              (* Pickle state *)

(** [len(result) != 1 or result[0]['count'] != 1] *)
Definition count_is_not_one (result : list row) : M bool :=
  match result with
  | [first] => count ← getitem first "count"; mret (negb (py_eq count (VInt 1)))
  | _ => mret true
  end.

Definition store (oid : option string) (old_serial : option Z)
    (writer : Writer.t) (obj : Obj) : M unit :=
  match oid with
  | None => raise AssertionError
  | Some oid =>
      let pickled := Writer.serialize writer in
      (if (_large_record_size <=? Z.of_nat (length pickled))%Z
       then log INFO ("Large object " +:+ __class__ obj +:+ ": "
                      +:+ str_of_nat (length pickled))
       else mret tt);;
      st ← get_state;
      let table_name := _objects_table_name (self st) in
      naive_upsert ← _sql_get "NAIVE_UPSERT" table_name;
      let update :=
        negb (__new_marker__ obj) && bool_decide (_p_serial obj ≠ None) in
      statement_sql ←
        (if update
         then
           (* we should be confident this is an object update *)
           _sql_get "UPDATE" table_name
         else mret naive_upsert);
      conn ← get_connection;
      async_with TransactionLock
        (st ← get_state;
         let args := store_args oid (Transaction._tid (txn st)) old_serial writer in
         result ←
           try_except
             (call (EvFetch conn statement_sql args)
                   (λ h, conn_fetch h conn statement_sql args))
             (λ ex,
                match ex with
                | UniqueViolationError detail =>
                    Some (if contains "Key (parent_id, id)" detail
                          then raise (ConflictIdOnContainer ex)
                          else raise ex)
                | ForeignKeyViolationError =>
                    Some (modify (set_txn (λ t,
                            with_deleted (<[_p_oid obj := obj]> (Transaction.deleted t)) t));;
                          raise (TIDConflictError
                            ("Bad value inserting into database that could be caused "
                             +:+ "by a bad cache value. This should resolve on request retry.")
                            oid old_serial writer))
                | InterfaceError msg =>
                    Some (if contains "another operation is in progress" msg
                          then raise (ConflictError
                                 "asyncpg error, another operation in progress."
                                 (Some (oid, old_serial, writer)))
                          else raise ex)
                | DeadlockDetectedError =>
                    Some (raise (ConflictError "Deadlock detected."
                                   (Some (oid, old_serial, writer))))
                | _ => None
                end);
         mismatch ← count_is_not_one result;
         if (mismatch : bool)
         then
           if update
           then
             (* raise tid conflict error *)
             raise (TIDConflictError
               ("Mismatch of tid of object being updated. This is likely "
                +:+ "caused by a cache invalidation race condition and should "
                +:+ "be an edge case. This should resolve on request retry.")
               oid old_serial writer)
           else
             log ERROR ("Incorrect response count from database update. "
                        +:+ "This should not happen. tid: "
                        +:+ str_of_int (Transaction._tid (txn st)))
         else mret tt);;
      store_object obj pickled
  end.

Definition get_conflicts : M (list row) :=
  async_with StorageLock
    (st ← get_state;
     let modified := Transaction.modified (txn st) in
     if bool_decide (size modified = 0%nat)
     then mret []
     else
       (* use storage lock instead of transaction lock *)
       if bool_decide (size modified < 1000)%nat
       then
         (* if it's too large, we're not going to check on object ids *)
         let modified_oids := (map_to_list modified).*1 in
         sql ← _sql_get "TXN_CONFLICTS_ON_OIDS" (_objects_table_name (self st));
         conn ← attribute (_read_conn (self st)) "fetch";
         let args := [VInt (Transaction._tid (txn st)); VStrList modified_oids] in
         call (EvFetch conn sql args) (λ h, conn_fetch h conn sql args)
       else
         sql ← _sql_get "TXN_CONFLICTS" (_objects_table_name (self st));
         conn ← attribute (_read_conn (self st)) "fetch";
         let args := [VInt (Transaction._tid (txn st))] in
         call (EvFetch conn sql args) (λ h, conn_fetch h conn sql args)).

Definition get_one_row (sql : string) (args : list value) (prepare : bool)
  : M (option row) :=
  conn ← get_connection;
  (* Helper function to provide easy adaptation to cockroach *)
  if prepare
  then
    (* latest version of asyncpg has prepare bypassing statement cache *)
    smt ← call (EvPrepare conn sql) (λ h, conn_prepare h conn sql);
    call (EvStmtFetchrow smt args) (λ h, stmt_fetchrow h smt args)
  else call (EvFetchrow conn sql args) (λ h, conn_fetchrow h conn sql args).

Definition get_annotation (oid id : string) : M (option row) :=
  st ← get_state;
  sql ← _sql_get "GET_ANNOTATION" (_objects_table_name (self st));
  async_with TransactionLock
    (result ← get_one_row sql [VStr oid; VStr id] true;
     match result with
     | Some record =>
         parent ← getitem record "parent_id";
         if py_eq parent (VStr TRASHED_ID) then mret None else mret result
     | None => mret result
     end).

(** The loop of [get_annotation_keys] over the fetched rows. *)
Fixpoint keep_not_trashed (result : list row) : M (list row) :=
  match result with
  | [] => mret []
  | item :: rest =>
      parent ← getitem item "parent_id";
      items ← keep_not_trashed rest;
      if negb (py_eq parent (VStr TRASHED_ID))
      then mret (item :: items)
      else mret items
  end.

Definition get_annotation_keys (oid : string) : M (list row) :=
  conn ← get_connection;
  st ← get_state;
  sql ← _sql_get "GET_ANNOTATIONS_KEYS" (_objects_table_name (self st));
  result ← async_with TransactionLock
             (call (EvFetch conn sql [VStr oid])
                   (λ h, conn_fetch h conn sql [VStr oid]));
  keep_not_trashed result.

(** [items] and [read_blob_chunks] are asynchronous generators over a
    cursor; the value of the model is the list of the records they yield
    when they are iterated to the end. *)
Definition items (oid : string) : M (list row) :=
  conn ← get_connection;
  st ← get_state;
  sql ← _sql_get "GET_CHILDREN" (_objects_table_name (self st));
  (* locks are dangerous in cursors since comsuming code might do
     sub-queries and they you end up with a deadlock *)
  call (EvCursor conn sql [VStr oid]) (λ h, conn_cursor h conn sql [VStr oid]).

Definition read_blob_chunk (bid : string) (chunk : Z) : M (option row) :=
  st ← get_state;
  sql ← _sql_get "READ_BLOB_CHUNK" (_blobs_table_name (self st));
  async_with TransactionLock (get_one_row sql [VStr bid; VInt chunk] false).

Definition read_blob_chunks (bid : string) : M (list row) :=
  conn ← get_connection;
  call (EvCursor conn bid []) (λ h, conn_cursor h conn bid []).

(** ** Reads of single objects, of children and of the tid sequence *)

Definition load (oid : string) : M row :=
  st ← get_state;
  sql ← _sql_get "GET_OID" (_objects_table_name (self st));
  objects ← async_with TransactionLock (get_one_row sql [VStr oid] false);
  match objects with
  | None => raise (KeyError oid)
  | Some record => mret record
  end.

Definition get_current_tid : M value :=
  async_with StorageLock
    (* again, use storage lock here instead of trns lock *)
    (st ← get_state;
     stmt ← attribute (_stmt_max_tid (self st)) "fetchval";
     call (EvStmtFetchval stmt) (λ h, stmt_fetchval h stmt)).

(** The loop of [get_page_of_keys]: [keys.append(record['id'])] for every
    fetched record. *)
Fixpoint append_ids (keys : list value) (records : list row) : M (list value) :=
  match records with
  | [] => mret keys
  | record :: rest =>
      id ← getitem record "id";
      append_ids (keys ++ [id]) rest
  end.

(** The defaults [page=1] and [page_size=1000] of [get_page_of_keys]. *)
Definition default_page : Z := 1.

Definition default_page_size : Z := 1000.

Definition get_page_of_keys (oid : string) (page page_size : Z)
  : M (list value) :=
  conn ← get_connection;
  st ← get_state;
  sql ← _sql_get "BATCHED_GET_CHILDREN_KEYS" (_objects_table_name (self st));
  let args := [VStr oid; VInt page_size; VInt ((page - 1) * page_size)] in
  records ← call (EvFetch conn sql args) (λ h, conn_fetch h conn sql args);
  append_ids [] records.

Definition keys (oid : string) : M (list row) :=
  conn ← get_connection;
  st ← get_state;
  sql ← _sql_get "GET_CHILDREN_KEYS" (_objects_table_name (self st));
  async_with TransactionLock
    (call (EvFetch conn sql [VStr oid]) (λ h, conn_fetch h conn sql [VStr oid])).

Definition get_child (parent_oid id : string) : M (option row) :=
  st ← get_state;
  sql ← _sql_get "GET_CHILD" (_objects_table_name (self st));
  async_with TransactionLock
    (get_one_row sql [VStr parent_oid; VStr id] false).

Definition get_children (parent_oid : string) (ids : list string)
  : M (list row) :=
  conn ← get_connection;
  st ← get_state;
  sql ← _sql_get "GET_CHILDREN_BATCH" (_objects_table_name (self st));
  let args := [VStr parent_oid; VStrList ids] in
  async_with TransactionLock
    (call (EvFetch conn sql args) (λ h, conn_fetch h conn sql args)).

Definition has_key (parent_oid id : string) : M bool :=
  st ← get_state;
  sql ← _sql_get "EXIST_CHILD" (_objects_table_name (self st));
  result ← async_with TransactionLock
             (get_one_row sql [VStr parent_oid; VStr id] false);
  match result with
  | None => mret false
  | Some _ => mret true
  end.

(** Massive treatment without security *)
Definition _get_page_resources_of_type (type_ : string) (page page_size : Z)
  : M (list row) :=
  conn ← get_connection;
  async_with TransactionLock
    (st ← get_state;
     sql ← _sql_get "RESOURCES_BY_TYPE" (_objects_table_name (self st));
     let args := [VStr type_; VInt page_size; VInt ((page - 1) * page_size)] in
     records ← call (EvFetch conn sql args) (λ h, conn_fetch h conn sql args);
     (* [keys.append(record)] for every fetched record *)
     mret (foldl (λ keys record, keys ++ [record]) [] records)).

(** ** Vocabulary of the statements below *)

(** The answer to a count-returning statement is not one row whose [count]
    is 1: the condition [len(result) != 1 or result[0]['count'] != 1] of
    [store], for an answer that has its [count] column. *)
Definition reports_other_than_one (result : list row) : Prop :=
  length result ≠ 1%nat
  ∨ ∃ first count, result = [first] ∧ row_get first "count" = Some count
                   ∧ py_eq count (VInt 1) = false.

(** What [store] logs before it touches the database. *)
Definition large_record_log (writer : Writer.t) (obj : Obj) : list event :=
  if (_large_record_size <=? Z.of_nat (length (Writer.serialize writer)))%Z
  then [EvLog INFO ("Large object " +:+ __class__ obj +:+ ": "
                    +:+ str_of_nat (length (Writer.serialize writer)))]
  else [].

(** [item['parent_id'] == TRASHED_ID] for a row that has the column. *)
Definition is_trashed (item : row) : bool :=
  match row_get item "parent_id" with
  | Some parent => py_eq parent (VStr TRASHED_ID)
  | None => false
  end.

(** A coroutine that has no normal exit. *)
Definition never_returns {A} (m : M A) : Prop :=
  ∀ st a st', run m st ≠ (Returned a, st').

(** [m], started with the storage lock held, does not run out of fuel and
    leaves the lock held. *)
Definition holds_lock {A} (m : M A) : Prop :=
  ∀ st, _lock (self st) = true →
        (run m st).1 ≠ OutOfFuel ∧ _lock (self (run m st).2) = true.

(** [m] does not run out of fuel, from any state. *)
Definition has_fuel {A} (m : M A) : Prop := ∀ st, (run m st).1 ≠ OutOfFuel.

(** [m] gives back the locks it takes: when it returns or raises, the
    storage lock and the transaction lock are as it found them. *)
Definition releases_locks {A} (m : M A) : Prop :=
  ∀ st,
    match (run m st).1 with
    | Returned _ | Raised _ =>
        _lock (self (run m st).2) = _lock (self st)
        ∧ Transaction._lock (txn (run m st).2) = Transaction._lock (txn st)
    | Blocked | OutOfFuel => True
    end.

(** The notifications the cache received. *)
Definition cache_notifications (history : list event)
  : list (Obj * list Byte.byte) :=
  omap (λ ev, match ev with
              | EvCacheStoreObject obj pickled => Some (obj, pickled)
              | _ => None
              end) history.

End Storage.

(** ** Sample data: one storage, one transaction, and databases that give a
    fixed answer *)

Definition sample_constants : Constants := {|
  MAX_OID_LENGTH := 87;
  TRASHED_ID := "DDDDDDDDDDDDDDDDDDDDDDDDDDDDDDDD";
  pg_connection_class := "guillotina.db.storages.pg.LightweightConnection"
|}.

(** A database that answers [fetch] with [fetched], [fetchrow] with
    [fetched_row], a cursor with [yielded] and [pool.acquire] with
    [acquired], whatever was asked before; the clock always shows [now]. *)
Definition sample_backend (now : float) (acquired : result Connection)
    (fetched : result (list row)) (fetched_row : result (option row))
    (yielded : result (list row)) : Backend := {|
  time_time := λ _, now;
  create_pool := λ _ args, Ok {| pool_id := 2; _loop := loop args |};
  pool_close := λ _ _ _, Ok tt;
  pool_acquire := λ _ _ _, acquired;
  conn_fetch := λ _ _ _ _, fetched;
  conn_fetchrow := λ _ _ _ _, fetched_row;
  conn_cursor := λ _ _ _ _, yielded;
  conn_prepare := λ _ conn query, Ok {| stmt_conn := conn; stmt_query := query |};
  stmt_fetchrow := λ _ _ _, fetched_row;
  stmt_fetchval := λ _ _, Ok (VInt 7)
|}.

Definition sample_pool : Pool := {| pool_id := 1; _loop := Some 0%nat |}.

Definition sample_storage : PostgresqlStorage := {|
  _dsn := Some "postgres://guillotina@localhost:5432/guillotina";
  _pool_size := 13;
  _pool := Some sample_pool;
  _read_conn := Some {| conn_id := 0 |};
  _lock := false;
  _conn_acquire_timeout := 20;
  _connection_options := [];
  _connection_initialized_on := 100%float;
  _objects_table_name := "objects";
  _blobs_table_name := "blobs";
  _stmt_next_tid := Some {| stmt_conn := {| conn_id := 0 |}; stmt_query := NEXT_TID |};
  _stmt_max_tid := Some {| stmt_conn := {| conn_id := 0 |}; stmt_query := MAX_TID |}
|}.

(** An object that was never stored, and one loaded at tid 4. *)
Definition new_object : Obj := {|
  __class__ := "<class 'guillotina.content.Item'>";
  __new_marker__ := false;
  _p_serial := None;
  _p_oid := "A"
|}.

Definition stored_object : Obj := {|
  __class__ := "<class 'guillotina.content.Item'>";
  __new_marker__ := false;
  _p_serial := Some 4;
  _p_oid := "A"
|}.

Definition sample_writer : Writer.t := {|
  Writer.serialize := [Byte.x00];
  Writer.get_json := JsonDict "{}";
  Writer.part := None;
  Writer.resource := true;
  Writer.of_ := None;
  Writer.parent_id := Some "P";
  Writer.id := Some "a";
  Writer.type := "Item"
|}.

Definition sample_txn (modified : gmap string Obj) : Transaction.t := {|
  Transaction._tid := 5;
  Transaction.modified := modified;
  Transaction.deleted := ∅;
  Transaction._lock := false;
  Transaction._db_conn := {| conn_id := 3 |}
|}.

Definition sample_state (modified : gmap string Obj) : state := {|
  self := sample_storage;
  txn := sample_txn modified;
  history := []
|}.

(** The row a count-returning statement answers with. *)
Definition count_row (n : Z) : row := [("count", VInt n)].

(** The database answers every write with the given count. *)
Definition backend_counting (n : Z) : Backend :=
  sample_backend 101%float (Ok {| conn_id := 9 |}) (Ok [count_row n])
    (Ok None) (Ok []).

(** The database refuses every write with the given error. *)
Definition backend_refusing (e : exn) : Backend :=
  sample_backend 101%float (Ok {| conn_id := 9 |}) (Err e) (Ok None) (Ok []).

(** The pool refuses every session with the given message, and the clock
    shows [now]. *)
Definition backend_without_sessions (now : float) (msg : string) : Backend :=
  sample_backend now (Err (InterfaceError msg)) (Ok []) (Ok None) (Ok []).

(** Two annotations of an object, the second one in the trash. *)
Definition live_annotation : row :=
  [("id", VStr "default"); ("parent_id", VNone)].

Definition trashed_annotation : row :=
  [("id", VStr "guillotina.behaviors.dublincore.IDublinCore");
   ("parent_id", VStr (@TRASHED_ID sample_constants))].

Definition backend_with_annotations : Backend :=
  sample_backend 101%float (Ok {| conn_id := 9 |})
    (Ok [live_annotation; trashed_annotation]) (Ok (Some trashed_annotation))
    (Ok []).


(** The prepared statements fail with the given message; the clock shows
    [now] and everything else works. *)
Definition backend_with_broken_statements (now : float) (msg : string)
  : Backend := {|
  time_time := λ _, now;
  create_pool := λ _ args, Ok {| pool_id := 2; _loop := loop args |};
  pool_close := λ _ _ _, Ok tt;
  pool_acquire := λ _ _ _, Ok {| conn_id := 9 |};
  conn_fetch := λ _ _ _ _, Ok [];
  conn_fetchrow := λ _ _ _ _, Ok None;
  conn_cursor := λ _ _ _ _, Ok [];
  conn_prepare := λ _ conn query, Ok {| stmt_conn := conn; stmt_query := query |};
  stmt_fetchrow := λ _ _ _, Ok None;
  stmt_fetchval := λ _ _, Err (InterfaceError msg)
|}.

(** No pool can be created: [create_pool] fails with the given error. *)
Definition backend_without_pools (e : exn) : Backend := {|
  time_time := λ _, 101%float;
  create_pool := λ _ _, Err e;
  pool_close := λ _ _ _, Err TimeoutError;
  pool_acquire := λ _ _ _, Ok {| conn_id := 9 |};
  conn_fetch := λ _ _ _ _, Ok [];
  conn_fetchrow := λ _ _ _ _, Ok None;
  conn_cursor := λ _ _ _ _, Ok [];
  conn_prepare := λ _ conn query, Ok {| stmt_conn := conn; stmt_query := query |};
  stmt_fetchrow := λ _ _ _, Ok None;
  stmt_fetchval := λ _ _, Ok (VInt 7)
|}.

(** The sample state while the transaction lock is held. *)
Definition state_with_transaction_lock_held : state :=
  set_txn (with_txn_lock_held true) (sample_state ∅).


(** Two children of an object, as rows of their keys. *)
Definition child_rows : list row := [[("id", VStr "a")]; [("id", VStr "b")]].

Definition backend_with_children : Backend :=
  sample_backend 101%float (Ok {| conn_id := 9 |}) (Ok child_rows)
    (Ok (Some [("zoid", VStr "B")])) (Ok child_rows).

(** The annotation that is not in the trash, whatever is asked. *)
Definition backend_with_live_annotation : Backend :=
  sample_backend 101%float (Ok {| conn_id := 9 |}) (Ok [live_annotation])
    (Ok (Some live_annotation)) (Ok []).

(** * Properties *)

Section Properties.
Context {constants : Constants} {pg : Backend}.

#[local] Arguments format_table_name : simpl never.
#[local] Arguments sql_get : simpl never.
#[local] Arguments calls : simpl never.
#[local] Arguments String.append : simpl never.

(** ** The history and the calls in it *)

Lemma calls_app (h1 h2 : list event) : calls (h1 ++ h2) = calls h1 ++ calls h2.
Proof. apply List.filter_app. Qed.

Lemma calls_internal (h : list event) (ev : event) :
  is_call ev = false → calls (h ++ [ev]) = calls h.
Proof.
  intros Hev. rewrite calls_app. unfold calls at 2. cbn.
  rewrite Hev. apply app_nil_r.
Qed.

Lemma calls_external (h : list event) (ev : event) :
  is_call ev = true → calls (h ++ [ev]) = calls h ++ [ev].
Proof.
  intros Hev. rewrite calls_app. unfold calls at 2. cbn. now rewrite Hev.
Qed.

Lemma calls_optional_log (h : list event) (c : bool) (level : log_level)
    (msg : string) :
  calls (h ++ (if c then [EvLog level msg] else [])) = calls h.
Proof.
  destruct c; [now apply calls_internal | now rewrite app_nil_r].
Qed.

(** Normalizes [calls] of a history that grew by known events. *)
Ltac seen_calls :=
  repeat first
    [ rewrite calls_internal by reflexivity
    | rewrite calls_external by reflexivity
    | rewrite calls_optional_log
    | rewrite app_nil_r ];
  rewrite <- ?app_assoc; cbn [app].

(** ** Running coroutines *)

Lemma run_bind {A B} (m : M A) (f : A → M B) (st : state) :
  run (m ≫= f) st
  = match run m st with
    | (Returned a, st') => run (f a) st'
    | (Raised e, st') => (Raised e, st')
    | (Blocked, st') => (Blocked, st')
    | (OutOfFuel, st') => (OutOfFuel, st')
    end.
Proof. reflexivity. Qed.

Lemma run_ret {A} (a : A) (st : state) : run (mret a) st = (Returned a, st).
Proof. reflexivity. Qed.

Lemma run_raise {A} (e : exn) (st : state) :
  run (raise e : M A) st = (Raised e, st).
Proof. reflexivity. Qed.

Lemma run_get_state (st : state) : run get_state st = (Returned st, st).
Proof. reflexivity. Qed.

Lemma run_modify (f : state → state) (st : state) :
  run (modify f) st = (Returned tt, f st).
Proof. reflexivity. Qed.

Lemma run_emit (ev : event) (st : state) :
  run (emit ev) st = (Returned tt, record_event ev st).
Proof. reflexivity. Qed.

Lemma run_log (level : log_level) (msg : string) (st : state) :
  run (log level msg) st = (Returned tt, record_event (EvLog level msg) st).
Proof. reflexivity. Qed.

Lemma run_store_object (obj : Obj) (pickled : list Byte.byte) (st : state) :
  run (store_object obj pickled) st
  = (Returned tt, record_event (EvCacheStoreObject obj pickled) st).
Proof. reflexivity. Qed.

Lemma run_get_connection (st : state) :
  run get_connection st = (Returned (Transaction._db_conn (txn st)), st).
Proof. reflexivity. Qed.

Lemma run_call {A} (ev : event) (answer : list event → result A) (st : state) :
  run (call ev answer) st
  = match answer (calls (history st)) with
    | Ok a => (Returned a, record_event ev st)
    | Err e => (Raised e, record_event ev st)
    end.
Proof. reflexivity. Qed.

Lemma run_try_except {A} (body : M A) (handler : exn → option (M A))
    (st : state) :
  run (try_except body handler) st
  = match run body st with
    | (Raised ex, st') =>
        match handler ex with
        | Some clause => run clause st'
        | None => (Raised ex, st')
        end
    | other => other
    end.
Proof. reflexivity. Qed.

Lemma run_async_with {A} (l : lock_name) (body : M A) (st : state) :
  run (async_with l body) st
  = if locked l st then (Blocked, st)
    else
      match run body (record_event (EvLockAcquire l) (set_locked l true st)) with
      | (Returned a, st') =>
          (Returned a, record_event (EvLockRelease l) (set_locked l false st'))
      | (Raised e, st') =>
          (Raised e, record_event (EvLockRelease l) (set_locked l false st'))
      | other => other
      end.
Proof. reflexivity. Qed.

Lemma run_optional_log (c : bool) (level : log_level) (msg : string)
    (st : state) :
  run (if c then log level msg else mret tt) st
  = (Returned tt,
     {| self := self st; txn := txn st;
        history := history st ++ (if c then [EvLog level msg] else []) |}).
Proof.
  destruct c; [reflexivity|]. destruct st. cbn. now rewrite app_nil_r.
Qed.

Lemma run_attribute {A} (a : A) (name : string) (st : state) :
  run (attribute (Some a) name) st = (Returned a, st).
Proof. reflexivity. Qed.

Lemma run_sql_get (name table_name sql : string) (st : state) :
  sql_get name table_name = Some sql →
  run (_sql_get name table_name) st = (Returned sql, st).
Proof. intros Hsql. unfold _sql_get. now rewrite Hsql. Qed.

(** The fields of a state after it was updated. *)
Ltac state_fields :=
  cbn [negb andb orb
       history self txn record_event set_self set_txn set_locked locked
       with_txn_lock_held with_lock_held with_deleted with_pool
       with_read_conn with_stmt_next_tid with_stmt_max_tid
       with_connection_initialized_on
       Transaction._tid Transaction._db_conn Transaction._lock
       Transaction.modified Transaction.deleted
       _dsn _pool_size _pool _read_conn _lock _conn_acquire_timeout
       _connection_options _connection_initialized_on _objects_table_name
       _blobs_table_name _stmt_next_tid _stmt_max_tid].

(** Runs a coroutine one primitive at a time, as far as the state and the
    answers are known. *)
Ltac run_steps :=
  repeat progress
    (rewrite ?run_bind, ?run_ret, ?run_raise, ?run_get_state, ?run_modify,
       ?run_emit, ?run_log, ?run_store_object, ?run_get_connection,
       ?run_call, ?run_try_except, ?run_async_with, ?run_attribute,
       ?run_optional_log;
     cbv beta iota zeta; state_fields).

(** Replaces the state by its fields, so that a lock taken and given back
    leaves the very same record. *)
Ltac open_state st :=
  destruct st as [[] [] ?];
  cbn [history self txn
       Transaction._tid Transaction._db_conn Transaction._lock
       Transaction.modified Transaction.deleted
       _dsn _pool_size _pool _read_conn _lock _conn_acquire_timeout
       _connection_options _connection_initialized_on _objects_table_name
       _blobs_table_name _stmt_next_tid _stmt_max_tid].

Lemma same_run {A} (o o' : outcome A) (st st' : state) :
  o = o' → self st = self st' → txn st = txn st' → history st = history st' →
  (o, st) = (o', st').
Proof. destruct st, st'. cbn. now intros -> -> -> ->. Qed.

(** Closes a goal that compares the final state with the expected one,
    field by field. *)
Ltac same_state :=
  apply same_run; state_fields;
  [ reflexivity | reflexivity | reflexivity
  | rewrite <- ?app_assoc; reflexivity ].

(** ** The catalogue entries the storage methods ask for *)

Lemma sql_get_registered (name template table_name : string) :
  _sql_statements !! name = Some template →
  sql_get name table_name = Some (format_table_name template table_name).
Proof. intros Hname. unfold sql_get. now rewrite Hname. Qed.

Lemma registered_UPSERT :
  _sql_statements !! "UPSERT"
  = Some (_wrap_return_count (NAIVE_UPSERT +:+ "
WHERE
    tid = EXCLUDED.otid")).
Proof. reflexivity. Qed.

Lemma registered_NAIVE_UPSERT :
  _sql_statements !! "NAIVE_UPSERT" = Some (_wrap_return_count NAIVE_UPSERT).
Proof. reflexivity. Qed.

Lemma registered_UPDATE :
  _sql_statements !! "UPDATE"
  = Some (_wrap_return_count (NAIVE_UPDATE +:+ " AND tid = $7::int")).
Proof. reflexivity. Qed.

Lemma registered_NAIVE_UPDATE :
  _sql_statements !! "NAIVE_UPDATE" = Some (_wrap_return_count NAIVE_UPDATE).
Proof. reflexivity. Qed.

Lemma registered_TXN_CONFLICTS :
  _sql_statements !! "TXN_CONFLICTS" = Some TXN_CONFLICTS.
Proof. reflexivity. Qed.

Lemma registered_TXN_CONFLICTS_ON_OIDS :
  _sql_statements !! "TXN_CONFLICTS_ON_OIDS"
  = Some (TXN_CONFLICTS +:+ " AND zoid = ANY($2)").
Proof. reflexivity. Qed.

#[local] Opaque sql_get.

(** Looks a registered statement up. *)
Ltac lookup_sql registered :=
  match goal with
  | |- context [run (_sql_get ?name ?table_name) ?st] =>
      rewrite (run_sql_get name table_name _ st
                 (sql_get_registered name _ table_name registered))
  end.

(** ** Conflict detection *)

Lemma modified_oids_are_the_keys (modified : gmap string Obj) (oid : string) :
  oid ∈ (map_to_list modified).*1 ↔ is_Some (modified !! oid).
Proof.
  rewrite list_elem_of_fmap. split.
  - intros ([k v] & -> & Hin). apply elem_of_map_to_list in Hin. now exists v.
  - intros [v Hv]. exists (oid, v). split; [reflexivity|].
    now apply elem_of_map_to_list.
Qed.

Lemma get_conflicts_empty (st : state) :
  _lock (self st) = false →
  Transaction.modified (txn st) = ∅ →
  run get_conflicts st
  = (Returned [],
     {| self := self st; txn := txn st;
        history := history st
                   ++ [EvLockAcquire StorageLock; EvLockRelease StorageLock] |}).
Proof.
  open_state st. intros -> ->.
  unfold get_conflicts. run_steps.
  rewrite bool_decide_eq_true_2 by apply map_size_empty.
  run_steps. same_state.
Qed.

(** C9. With nothing modified, [get_conflicts] takes the storage lock,
    returns the empty list and gives the lock back; no query reaches the
    read session. *)
Theorem get_conflicts_nothing_modified (st : state) :
  _lock (self st) = false →
  Transaction.modified (txn st) = ∅ →
  run get_conflicts st
  = (Returned [],
     {| self := self st; txn := txn st;
        history := history st
                   ++ [EvLockAcquire StorageLock; EvLockRelease StorageLock] |})
  ∧ calls (history (run get_conflicts st).2) = calls (history st).
Proof.
  intros Hfree Hempty. rewrite get_conflicts_empty by assumption.
  split; [reflexivity|]. cbn [snd history].
  change [EvLockAcquire StorageLock; EvLockRelease StorageLock]
    with ([EvLockAcquire StorageLock] ++ [EvLockRelease StorageLock]).
  rewrite app_assoc. now seen_calls.
Qed.

Lemma get_conflicts_query (st : state) (conn : Connection) :
  _lock (self st) = false →
  Transaction.modified (txn st) ≠ ∅ →
  _read_conn (self st) = Some conn →
  let few := bool_decide (size (Transaction.modified (txn st)) < 1000)%nat in
  let sql :=
    format_table_name
      (if few then TXN_CONFLICTS +:+ " AND zoid = ANY($2)" else TXN_CONFLICTS)
      (_objects_table_name (self st)) in
  let args :=
    if few
    then [VInt (Transaction._tid (txn st));
          VStrList (map_to_list (Transaction.modified (txn st))).*1]
    else [VInt (Transaction._tid (txn st))] in
  run get_conflicts st
  = (match conn_fetch (calls (history st)) conn sql args with
     | Ok rows => Returned rows
     | Err e => Raised e
     end,
     {| self := self st; txn := txn st;
        history := history st
                   ++ [EvLockAcquire StorageLock; EvFetch conn sql args;
                       EvLockRelease StorageLock] |}).
Proof.
  open_state st. intros -> Hsome ->.
  unfold get_conflicts. run_steps.
  rewrite bool_decide_eq_false_2 by (now rewrite map_size_empty_iff).
  case_bool_decide; cbn zeta.
  - run_steps. lookup_sql registered_TXN_CONFLICTS_ON_OIDS. run_steps.
    seen_calls. destruct (conn_fetch _ _ _ _); same_state.
  - run_steps. lookup_sql registered_TXN_CONFLICTS. run_steps.
    seen_calls. destruct (conn_fetch _ _ _ _); same_state.
Qed.

(** C4. With a non-empty modified map, [get_conflicts] sends one query, on
    the read session and between taking and releasing the storage lock:
    TXN_CONFLICTS_ON_OIDS with the caller's tid and the modified oids when
    fewer than 1000 oids were modified, the global TXN_CONFLICTS with the
    caller's tid otherwise.  The first adds [AND zoid = ANY($2)] to the
    second, which selects [WHERE tid > $1]. *)
Theorem get_conflicts_chooses_query (st : state) (conn : Connection) :
  _lock (self st) = false →
  Transaction.modified (txn st) ≠ ∅ →
  _read_conn (self st) = Some conn →
  ∃ sql args,
    run get_conflicts st
    = (match conn_fetch (calls (history st)) conn sql args with
       | Ok rows => Returned rows
       | Err e => Raised e
       end,
       {| self := self st; txn := txn st;
          history := history st
                     ++ [EvLockAcquire StorageLock; EvFetch conn sql args;
                         EvLockRelease StorageLock] |})
    ∧ (if bool_decide (size (Transaction.modified (txn st)) < 1000)%nat
       then sql_get "TXN_CONFLICTS_ON_OIDS" (_objects_table_name (self st))
            = Some sql
            ∧ ∃ oids, args = [VInt (Transaction._tid (txn st)); VStrList oids]
                ∧ NoDup oids
                ∧ ∀ oid, oid ∈ oids
                         ↔ is_Some (Transaction.modified (txn st) !! oid)
       else sql_get "TXN_CONFLICTS" (_objects_table_name (self st)) = Some sql
            ∧ args = [VInt (Transaction._tid (txn st))])
    ∧ _sql_statements !! "TXN_CONFLICTS_ON_OIDS"
      = Some (TXN_CONFLICTS +:+ " AND zoid = ANY($2)")
    ∧ _sql_statements !! "TXN_CONFLICTS" = Some TXN_CONFLICTS
    ∧ contains "WHERE tid > $1" TXN_CONFLICTS = true.
Proof.
  intros Hfree Hsome Hconn.
  pose proof (get_conflicts_query st conn Hfree Hsome Hconn) as Hrun.
  cbn zeta in Hrun. eexists _, _. split; [exact Hrun|].
  split; [|split; [|split]]; try reflexivity.
  case_bool_decide.
  - split; [apply sql_get_registered, registered_TXN_CONFLICTS_ON_OIDS|].
    eexists. split; [reflexivity|]. split.
    + apply NoDup_fst_map_to_list.
    + apply modified_oids_are_the_keys.
  - split; [apply sql_get_registered, registered_TXN_CONFLICTS|reflexivity].
Qed.

(** ** The write protocol of [store] *)

Lemma count_is_not_one_true (result : list row) (st : state) :
  reports_other_than_one result →
  run (count_is_not_one result) st = (Returned true, st).
Proof.
  intros [Hlen | (first & count & -> & Hcolumn & Hne)].
  - destruct result as [|r [|r' rest]]; try reflexivity. now destruct Hlen.
  - unfold count_is_not_one, getitem. rewrite run_bind, Hcolumn. run_steps.
    now rewrite Hne.
Qed.

Lemma store_update_count_mismatch (st : state) (oid : string)
    (old_serial : option Z) (writer : Writer.t) (obj : Obj) (sql : string)
    (result : list row) :
  Transaction._lock (txn st) = false →
  __new_marker__ obj = false →
  _p_serial obj ≠ None →
  sql_get "UPDATE" (_objects_table_name (self st)) = Some sql →
  conn_fetch (calls (history st)) (Transaction._db_conn (txn st)) sql
    (store_args oid (Transaction._tid (txn st)) old_serial writer)
  = Ok result →
  reports_other_than_one result →
  run (store (Some oid) old_serial writer obj) st
  = (Raised (TIDConflictError
       "Mismatch of tid of object being updated. This is likely caused by a cache invalidation race condition and should be an edge case. This should resolve on request retry."
       oid old_serial writer),
     {| self := self st; txn := txn st;
        history := history st ++ large_record_log writer obj
          ++ [EvLockAcquire TransactionLock;
              EvFetch (Transaction._db_conn (txn st)) sql
                (store_args oid (Transaction._tid (txn st)) old_serial writer);
              EvLockRelease TransactionLock] |}).
Proof.
  open_state st. intros -> Hmarker Hserial Hsql Hfetch Hcount.
  unfold store, large_record_log.
  rewrite Hmarker, (bool_decide_eq_true_2 _ Hserial).
  run_steps.
  lookup_sql registered_NAIVE_UPSERT; run_steps.
  rewrite (run_sql_get _ _ _ _ Hsql); run_steps.
  seen_calls; rewrite Hfetch; run_steps.
  rewrite count_is_not_one_true by assumption; run_steps.
  same_state.
Qed.

Lemma store_insert_count_mismatch (st : state) (oid : string)
    (old_serial : option Z) (writer : Writer.t) (obj : Obj) (sql : string)
    (result : list row) :
  Transaction._lock (txn st) = false →
  __new_marker__ obj = true ∨ _p_serial obj = None →
  sql_get "NAIVE_UPSERT" (_objects_table_name (self st)) = Some sql →
  conn_fetch (calls (history st)) (Transaction._db_conn (txn st)) sql
    (store_args oid (Transaction._tid (txn st)) old_serial writer)
  = Ok result →
  reports_other_than_one result →
  run (store (Some oid) old_serial writer obj) st
  = (Returned tt,
     {| self := self st; txn := txn st;
        history := history st ++ large_record_log writer obj
          ++ [EvLockAcquire TransactionLock;
              EvFetch (Transaction._db_conn (txn st)) sql
                (store_args oid (Transaction._tid (txn st)) old_serial writer);
              EvLog ERROR
                ("Incorrect response count from database update. This should not happen. tid: "
                 +:+ str_of_int (Transaction._tid (txn st)));
              EvLockRelease TransactionLock;
              EvCacheStoreObject obj (Writer.serialize writer)] |}).
Proof.
  open_state st. intros -> Hinsert Hsql Hfetch Hcount.
  assert (Hupdate : negb (__new_marker__ obj)
                    && bool_decide (_p_serial obj ≠ None) = false).
  { destruct Hinsert as [-> | ->]; [reflexivity|].
    rewrite bool_decide_eq_false_2 by (intros Hne; now apply Hne).
    apply andb_false_r. }
  unfold store, large_record_log. rewrite Hupdate.
  run_steps.
  rewrite (run_sql_get _ _ _ _ Hsql); run_steps.
  seen_calls; rewrite Hfetch; run_steps.
  rewrite count_is_not_one_true by assumption; run_steps.
  same_state.
Qed.

(** C1. When the statement [store] executed answers with anything but one
    row of count 1: on the update path (no new marker, prior serial not
    null) [store] raises TIDConflictError and the cache is not notified; on
    the insert path it logs at error level, raises nothing and goes on to
    notify the cache. *)
Theorem store_checks_row_count (st : state) (oid : string)
    (old_serial : option Z) (writer : Writer.t) (obj : Obj) (sql : string)
    (result : list row) :
  Transaction._lock (txn st) = false →
  conn_fetch (calls (history st)) (Transaction._db_conn (txn st)) sql
    (store_args oid (Transaction._tid (txn st)) old_serial writer)
  = Ok result →
  reports_other_than_one result →
  (__new_marker__ obj = false → _p_serial obj ≠ None →
   sql_get "UPDATE" (_objects_table_name (self st)) = Some sql →
   run (store (Some oid) old_serial writer obj) st
   = (Raised (TIDConflictError
        "Mismatch of tid of object being updated. This is likely caused by a cache invalidation race condition and should be an edge case. This should resolve on request retry."
        oid old_serial writer),
      {| self := self st; txn := txn st;
         history := history st ++ large_record_log writer obj
           ++ [EvLockAcquire TransactionLock;
               EvFetch (Transaction._db_conn (txn st)) sql
                 (store_args oid (Transaction._tid (txn st)) old_serial writer);
               EvLockRelease TransactionLock] |}))
  ∧ (__new_marker__ obj = true ∨ _p_serial obj = None →
     sql_get "NAIVE_UPSERT" (_objects_table_name (self st)) = Some sql →
     run (store (Some oid) old_serial writer obj) st
     = (Returned tt,
        {| self := self st; txn := txn st;
           history := history st ++ large_record_log writer obj
             ++ [EvLockAcquire TransactionLock;
                 EvFetch (Transaction._db_conn (txn st)) sql
                   (store_args oid (Transaction._tid (txn st)) old_serial writer);
                 EvLog ERROR
                   ("Incorrect response count from database update. This should not happen. tid: "
                    +:+ str_of_int (Transaction._tid (txn st)));
                 EvLockRelease TransactionLock;
                 EvCacheStoreObject obj (Writer.serialize writer)] |})).
Proof.
  intros Hfree Hfetch Hcount. split.
  - intros Hmarker Hserial Hsql.
    now apply store_update_count_mismatch with (result := result).
  - intros Hinsert Hsql.
    now apply store_insert_count_mismatch with (result := result).
Qed.



(** [store] on an answer that is an error. *)
Lemma store_fetch_error (st : state) (oid : string) (old_serial : option Z)
    (writer : Writer.t) (obj : Obj) (sql : string) (e : exn) :
  Transaction._lock (txn st) = false →
  sql_get (if negb (__new_marker__ obj) && bool_decide (_p_serial obj ≠ None)
           then "UPDATE" else "NAIVE_UPSERT")
          (_objects_table_name (self st)) = Some sql →
  conn_fetch (calls (history st)) (Transaction._db_conn (txn st)) sql
    (store_args oid (Transaction._tid (txn st)) old_serial writer)
  = Err e →
  match e with
  | UniqueViolationError detail =>
      (run (store (Some oid) old_serial writer obj) st).1
      = Raised (if contains "Key (parent_id, id)" detail
                then ConflictIdOnContainer (UniqueViolationError detail)
                else UniqueViolationError detail)
  | ForeignKeyViolationError =>
      (run (store (Some oid) old_serial writer obj) st).1
      = Raised (TIDConflictError
          "Bad value inserting into database that could be caused by a bad cache value. This should resolve on request retry."
          oid old_serial writer)
      ∧ Transaction.deleted (txn (run (store (Some oid) old_serial writer obj) st).2)
        = <[_p_oid obj := obj]> (Transaction.deleted (txn st))
  | _ => True
  end.
Proof.
  open_state st. intros -> Hsql Hfetch. unfold store.
  destruct (negb _ && _) eqn:Hupdate; run_steps.
  1: lookup_sql registered_NAIVE_UPSERT; run_steps.
  all: rewrite (run_sql_get _ _ _ _ Hsql); run_steps.
  all: seen_calls; rewrite Hfetch; run_steps.
  all: destruct e; try exact I; run_steps.
  all: try (destruct (contains _ _); run_steps); try split; reflexivity.
Qed.

(** C3. The translation of the errors of the write statement: a unique
    violation whose detail contains "Key (parent_id, id)" becomes
    ConflictIdOnContainer and any other unique violation is raised as it
    came; a foreign-key violation puts the object into the deleted map of
    the transaction under its oid and becomes TIDConflictError. *)
Theorem store_translates_errors (st : state) (oid : string)
    (old_serial : option Z) (writer : Writer.t) (obj : Obj) (sql : string)
    (e : exn) :
  Transaction._lock (txn st) = false →
  sql_get (if negb (__new_marker__ obj) && bool_decide (_p_serial obj ≠ None)
           then "UPDATE" else "NAIVE_UPSERT")
          (_objects_table_name (self st)) = Some sql →
  conn_fetch (calls (history st)) (Transaction._db_conn (txn st)) sql
    (store_args oid (Transaction._tid (txn st)) old_serial writer)
  = Err e →
  match e with
  | UniqueViolationError detail =>
      (run (store (Some oid) old_serial writer obj) st).1
      = Raised (if contains "Key (parent_id, id)" detail
                then ConflictIdOnContainer (UniqueViolationError detail)
                else UniqueViolationError detail)
  | ForeignKeyViolationError =>
      (run (store (Some oid) old_serial writer obj) st).1
      = Raised (TIDConflictError
          "Bad value inserting into database that could be caused by a bad cache value. This should resolve on request retry."
          oid old_serial writer)
      ∧ Transaction.deleted (txn (run (store (Some oid) old_serial writer obj) st).2)
        !! _p_oid obj = Some obj
  | _ => True
  end.
Proof.
  intros Hfree Hsql Hfetch.
  pose proof (store_fetch_error st oid old_serial writer obj sql e
                Hfree Hsql Hfetch) as Hrun.
  destruct e; try exact I; [exact Hrun|].
  destruct Hrun as [Hout Hdeleted]. split; [exact Hout|].
  rewrite Hdeleted. apply lookup_insert_eq.
Qed.

(** ** Recovery of a broken connection pool *)

Lemma never_returns_raise {A} (e : exn) : never_returns (raise e : M A).
Proof. intros st a st'. rewrite run_raise. discriminate. Qed.

Lemma never_returns_bind {A B} (m : M A) (f : A → M B) :
  (∀ a, never_returns (f a)) → never_returns (m ≫= f).
Proof.
  intros Hf st b st'. rewrite run_bind.
  destruct (run m st) as [[a| | |] st1]; [apply Hf|discriminate..].
Qed.

Lemma restart_connection_with_never_returns (open : M (option Connection))
    (timeout : float) :
  never_returns (restart_connection_with open timeout).
Proof.
  unfold restart_connection_with.
  repeat (apply never_returns_bind; intros ?; cbv zeta).
  apply never_returns_raise.
Qed.

Lemma check_bad_connection_unrecognized (fuel : nat) (ex : exn) (st : state) :
  in_tuple (str_exn ex) bad_connection_messages = false →
  run (_check_bad_connection fuel ex) st = (Returned tt, st).
Proof.
  intros Hmsg. unfold _check_bad_connection, _check_bad_connection_with.
  now rewrite Hmsg.
Qed.

Lemma check_bad_connection_too_early (fuel : nat) (ex : exn) (st : state) :
  in_tuple (str_exn ex) bad_connection_messages = true →
  PrimFloat.ltb BAD_CONNECTION_RESTART_DELAY
    (PrimFloat.sub (time_time (calls (history st)))
                   (_connection_initialized_on (self st))) = false →
  run (_check_bad_connection fuel ex) st = (Returned tt, record_event EvTime st).
Proof.
  intros Hmsg Hearly. unfold _check_bad_connection, _check_bad_connection_with.
  rewrite Hmsg. run_steps. now rewrite Hearly.
Qed.

Lemma check_bad_connection_restarts (fuel : nat) (ex : exn) (st : state) :
  in_tuple (str_exn ex) bad_connection_messages = true →
  PrimFloat.ltb BAD_CONNECTION_RESTART_DELAY
    (PrimFloat.sub (time_time (calls (history st)))
                   (_connection_initialized_on (self st))) = true →
  run (_check_bad_connection fuel ex) st
  = run (restart_connection fuel default_restart_timeout)
        (record_event EvTime st).
Proof.
  intros Hmsg Hlate. unfold _check_bad_connection, _check_bad_connection_with.
  rewrite Hmsg. run_steps. now rewrite Hlate.
Qed.

Lemma restart_connection_recovers (fuel : nat) (timeout : float) (st : state)
    (old new : Pool) (conn : Connection) (next_tid max_tid : PreparedStatement) :
  _pool (self st) = Some old →
  let args := {| dsn := _dsn (self st); max_size := _pool_size (self st);
                 min_size := 2; loop := _loop old;
                 connection_class := pg_connection_class;
                 kw := _connection_options (self st) |} in
  let acquire_timeout := _conn_acquire_timeout (self st) in
  let seen := calls (history st) in
  (pool_close seen old timeout = Ok tt
   ∨ pool_close seen old timeout = Err TimeoutError) →
  create_pool (seen ++ [EvPoolClose old timeout; EvPoolTerminate old]) args
  = Ok new →
  pool_acquire (seen ++ [EvPoolClose old timeout; EvPoolTerminate old;
                         EvCreatePool args]) new acquire_timeout
  = Ok conn →
  conn_prepare (seen ++ [EvPoolClose old timeout; EvPoolTerminate old;
                         EvCreatePool args; EvPoolAcquire new acquire_timeout])
               conn NEXT_TID
  = Ok next_tid →
  conn_prepare (seen ++ [EvPoolClose old timeout; EvPoolTerminate old;
                         EvCreatePool args; EvPoolAcquire new acquire_timeout;
                         EvPrepare conn NEXT_TID])
               conn MAX_TID
  = Ok max_tid →
  run (restart_connection (S fuel) timeout) st
  = (Raised (ConflictError "Restarting connection to postgresql" None),
     {| self :=
          with_connection_initialized_on
            (time_time (seen ++ [EvPoolClose old timeout; EvPoolTerminate old;
                                 EvCreatePool args;
                                 EvPoolAcquire new acquire_timeout;
                                 EvPrepare conn NEXT_TID;
                                 EvPrepare conn MAX_TID]))
            (with_stmt_max_tid (Some max_tid)
               (with_stmt_next_tid (Some next_tid)
                  (with_read_conn (Some conn)
                     (with_pool (Some new) (self st)))));
        txn := txn st;
        history := history st
          ++ [EvLog ERROR "Connection potentially lost to pg, restarting";
              EvPoolClose old timeout; EvPoolTerminate old; EvCreatePool args;
              EvPoolAcquire new acquire_timeout; EvPrepare conn NEXT_TID;
              EvPrepare conn MAX_TID; EvTime] |}).
Proof.
  cbv zeta. intros Hpool Hclose Hcreate Hacquire Hnext Hmax.
  unfold restart_connection, restart_connection_with, get_pool. run_steps.
  rewrite Hpool. run_steps.
  seen_calls. destruct Hclose as [Hclose|Hclose]; rewrite Hclose; run_steps.
  all: rewrite Hpool; run_steps; seen_calls; rewrite Hcreate; run_steps.
  all: cbn [open]; unfold open_with, get_pool; run_steps.
  all: seen_calls; rewrite Hacquire; run_steps.
  all: unfold initialize_tid_statements; run_steps.
  all: seen_calls; rewrite Hnext; run_steps.
  all: seen_calls; rewrite Hmax; run_steps.
  all: seen_calls; same_state.
Qed.

(** C5. [_check_bad_connection] restarts the connection only for one of the
    three recognized messages and only when more than
    BAD_CONNECTION_RESTART_DELAY = 0.25 seconds passed since the pool was
    initialized; in every other case it returns without touching the pool.
    [restart_connection] has no normal exit, and when the database lets the
    pool be closed (or the close times out), recreated with the same
    settings, a session be acquired and the two TID statements be prepared,
    it installs the new pool, the new read session and the new statements,
    stamps the time and raises ConflictError. *)
Theorem bad_connection_recovery (fuel : nat) (msg : string) (st : state) :
  bad_connection_messages
  = ["cannot perform operation: connection is closed"; "connection is closed";
     "pool is closed"]
  ∧ BAD_CONNECTION_RESTART_DELAY = 0.25%float
  ∧ (in_tuple msg bad_connection_messages = false →
     run (_check_bad_connection fuel (InterfaceError msg)) st
     = (Returned tt, st))
  ∧ (in_tuple msg bad_connection_messages = true →
     PrimFloat.ltb BAD_CONNECTION_RESTART_DELAY
       (PrimFloat.sub (time_time (calls (history st)))
                      (_connection_initialized_on (self st))) = false →
     run (_check_bad_connection fuel (InterfaceError msg)) st
     = (Returned tt, record_event EvTime st))
  ∧ (in_tuple msg bad_connection_messages = true →
     PrimFloat.ltb BAD_CONNECTION_RESTART_DELAY
       (PrimFloat.sub (time_time (calls (history st)))
                      (_connection_initialized_on (self st))) = true →
     run (_check_bad_connection fuel (InterfaceError msg)) st
     = run (restart_connection fuel default_restart_timeout)
           (record_event EvTime st))
  ∧ (∀ timeout, never_returns (restart_connection fuel timeout))
  ∧ (∀ (timeout : float) (old new : Pool) (conn : Connection)
       (next_tid max_tid : PreparedStatement),
     _pool (self st) = Some old →
     let args := {| dsn := _dsn (self st); max_size := _pool_size (self st);
                    min_size := 2; loop := _loop old;
                    connection_class := pg_connection_class;
                    kw := _connection_options (self st) |} in
     let acquire_timeout := _conn_acquire_timeout (self st) in
     let seen := calls (history st) in
     (pool_close seen old timeout = Ok tt
      ∨ pool_close seen old timeout = Err TimeoutError) →
     create_pool (seen ++ [EvPoolClose old timeout; EvPoolTerminate old]) args
     = Ok new →
     pool_acquire (seen ++ [EvPoolClose old timeout; EvPoolTerminate old;
                            EvCreatePool args]) new acquire_timeout
     = Ok conn →
     conn_prepare (seen ++ [EvPoolClose old timeout; EvPoolTerminate old;
                            EvCreatePool args;
                            EvPoolAcquire new acquire_timeout])
                  conn NEXT_TID
     = Ok next_tid →
     conn_prepare (seen ++ [EvPoolClose old timeout; EvPoolTerminate old;
                            EvCreatePool args;
                            EvPoolAcquire new acquire_timeout;
                            EvPrepare conn NEXT_TID])
                  conn MAX_TID
     = Ok max_tid →
     run (restart_connection (S fuel) timeout) st
     = (Raised (ConflictError "Restarting connection to postgresql" None),
        {| self :=
             with_connection_initialized_on
               (time_time (seen ++ [EvPoolClose old timeout;
                                    EvPoolTerminate old; EvCreatePool args;
                                    EvPoolAcquire new acquire_timeout;
                                    EvPrepare conn NEXT_TID;
                                    EvPrepare conn MAX_TID]))
               (with_stmt_max_tid (Some max_tid)
                  (with_stmt_next_tid (Some next_tid)
                     (with_read_conn (Some conn)
                        (with_pool (Some new) (self st)))));
           txn := txn st;
           history := history st
             ++ [EvLog ERROR "Connection potentially lost to pg, restarting";
                 EvPoolClose old timeout; EvPoolTerminate old;
                 EvCreatePool args; EvPoolAcquire new acquire_timeout;
                 EvPrepare conn NEXT_TID; EvPrepare conn MAX_TID; EvTime] |})).
Proof.
  split; [reflexivity|]. split; [reflexivity|].
  split; [apply (check_bad_connection_unrecognized fuel (InterfaceError msg))|].
  split; [apply (check_bad_connection_too_early fuel (InterfaceError msg))|].
  split; [apply (check_bad_connection_restarts fuel (InterfaceError msg))|].
  split.
  - intros timeout. apply restart_connection_with_never_returns.
  - intros timeout old new conn next_tid max_tid.
    apply restart_connection_recovers.
Qed.



(** ** The bound on the recursion of [open]

    A restart runs under the storage lock, so a second failure of
    [pool.acquire] inside it waits for that lock instead of restarting
    again: two units of fuel are enough for every run of [open]. *)

Lemma holds_lock_ret {A} (a : A) : holds_lock (mret a).
Proof. intros st Hheld. now split. Qed.

Lemma holds_lock_raise {A} (e : exn) : holds_lock (raise e : M A).
Proof. intros st Hheld. now split. Qed.

Lemma holds_lock_get_state : holds_lock get_state.
Proof. intros st Hheld. now split. Qed.

Lemma holds_lock_modify (f : state → state) :
  (∀ st, _lock (self (f st)) = _lock (self st)) → holds_lock (modify f).
Proof. intros Hf st Hheld. split; [discriminate|]. cbn. now rewrite Hf. Qed.

Lemma holds_lock_emit (ev : event) : holds_lock (emit ev).
Proof. now apply holds_lock_modify. Qed.

Lemma holds_lock_call {A} (ev : event) (answer : list event → result A) :
  holds_lock (call ev answer).
Proof.
  intros st Hheld. rewrite run_call.
  destruct (answer _); now split.
Qed.

Lemma holds_lock_attribute {A} (o : option A) (name : string) :
  holds_lock (attribute o name).
Proof. destruct o; [apply holds_lock_ret|apply holds_lock_raise]. Qed.

Lemma holds_lock_bind {A B} (m : M A) (f : A → M B) :
  holds_lock m → (∀ a, holds_lock (f a)) → holds_lock (m ≫= f).
Proof.
  intros Hm Hf st Hheld. rewrite run_bind.
  destruct (Hm st Hheld) as [Hfuel Hlock].
  destruct (run m st) as [[a|e| |] st1]; cbn in *;
    [now apply Hf|now split|now split|congruence].
Qed.

Lemma holds_lock_try_except {A} (body : M A) (handler : exn → option (M A)) :
  holds_lock body →
  (∀ ex clause, handler ex = Some clause → holds_lock clause) →
  holds_lock (try_except body handler).
Proof.
  intros Hbody Hhandler st Hheld. rewrite run_try_except.
  destruct (Hbody st Hheld) as [Hfuel Hlock].
  destruct (run body st) as [[a|ex| |] st1]; cbn in *; try now split.
  destruct (handler ex) as [clause|] eqn:Hclause; [|now split].
  now apply (Hhandler ex clause).
Qed.

Lemma holds_lock_async_with_storage {A} (body : M A) :
  holds_lock (async_with StorageLock body).
Proof.
  intros st Hheld. rewrite run_async_with. cbn [locked].
  rewrite Hheld. now split.
Qed.

Lemma holds_lock_get_pool (loop : option nat) (kw : list (string * value)) :
  holds_lock (get_pool loop kw).
Proof.
  unfold get_pool. apply holds_lock_bind; [apply holds_lock_get_state|].
  intros st. destruct (_pool (self st)); [apply holds_lock_ret|].
  apply holds_lock_bind; [apply holds_lock_call|]. intros pool.
  apply holds_lock_bind; [now apply holds_lock_modify|]. intros _.
  apply holds_lock_ret.
Qed.

Lemma holds_lock_initialize_tid_statements :
  holds_lock initialize_tid_statements.
Proof.
  unfold initialize_tid_statements.
  repeat first
    [ apply holds_lock_bind; [|intros ?]
    | apply holds_lock_get_state
    | apply holds_lock_attribute
    | apply holds_lock_call
    | now apply holds_lock_modify ].
Qed.

Lemma holds_lock_open_with (check : exn → M unit) :
  holds_lock (open_with check).
Proof.
  unfold open_with.
  apply holds_lock_bind; [apply holds_lock_get_pool|]. intros pool.
  apply holds_lock_bind; [apply holds_lock_get_state|]. intros st.
  apply holds_lock_try_except.
  - apply holds_lock_bind; [apply holds_lock_call|]. intros conn.
    apply holds_lock_ret.
  - intros ex clause Hclause. destruct ex; try discriminate Hclause.
    injection Hclause as <-.
    apply holds_lock_bind; [apply holds_lock_async_with_storage|].
    intros _. apply holds_lock_ret.
Qed.

Lemma holds_lock_restart_connection_with (open : M (option Connection))
    (timeout : float) :
  holds_lock open → holds_lock (restart_connection_with open timeout).
Proof.
  intros Hopen. unfold restart_connection_with.
  repeat first
    [ apply holds_lock_get_state
    | apply holds_lock_get_pool
    | apply holds_lock_attribute
    | apply holds_lock_call
    | apply holds_lock_emit
    | apply holds_lock_initialize_tid_statements
    | apply holds_lock_raise
    | exact Hopen
    | now apply holds_lock_modify
    | apply holds_lock_try_except;
      [|intros ex clause Hclause; destruct ex; try discriminate Hclause;
        injection Hclause as <-; apply holds_lock_ret]
    | apply holds_lock_bind; [|intros ?]
    | progress cbv zeta ].
Qed.

Lemma holds_lock_check_bad_connection_with (restart : M unit) (ex : exn) :
  holds_lock restart → holds_lock (_check_bad_connection_with restart ex).
Proof.
  intros Hrestart. unfold _check_bad_connection_with.
  destruct (in_tuple _ _); [|apply holds_lock_ret].
  apply holds_lock_bind; [apply holds_lock_call|]. intros now.
  apply holds_lock_bind; [apply holds_lock_get_state|]. intros st.
  destruct (PrimFloat.ltb _ _); [exact Hrestart|apply holds_lock_ret].
Qed.

Lemma has_fuel_bind {A B} (m : M A) (f : A → M B) :
  has_fuel m → (∀ a, has_fuel (f a)) → has_fuel (m ≫= f).
Proof.
  intros Hm Hf st. rewrite run_bind. specialize (Hm st).
  destruct (run m st) as [[a|e| |] st1]; cbn in *;
    [apply Hf|discriminate|discriminate|congruence].
Qed.

Lemma has_fuel_get_pool (loop : option nat) (kw : list (string * value)) :
  has_fuel (get_pool loop kw).
Proof.
  intros st. unfold get_pool. rewrite run_bind, run_get_state.
  destruct (_pool (self st)); [discriminate|].
  rewrite run_bind, run_call. now destruct (create_pool _ _).
Qed.

Lemma has_fuel_async_with_storage {A} (body : M A) :
  holds_lock body → has_fuel (async_with StorageLock body).
Proof.
  intros Hbody st. rewrite run_async_with.
  destruct (locked StorageLock st); [discriminate|].
  destruct (Hbody (record_event (EvLockAcquire StorageLock)
                     (set_locked StorageLock true st)) eq_refl) as [Hfuel _].
  destruct (run body _) as [[a|e| |] st1]; cbn in *;
    [discriminate|discriminate|discriminate|congruence].
Qed.

Lemma has_fuel_open_with (check : exn → M unit) :
  (∀ ex, holds_lock (check ex)) → has_fuel (open_with check).
Proof.
  intros Hcheck. unfold open_with.
  apply has_fuel_bind; [apply has_fuel_get_pool|]. intros pool.
  apply has_fuel_bind; [discriminate|]. intros st0 st.
  rewrite run_try_except, run_bind, run_call.
  destruct (pool_acquire _ _ _) as [conn|[]]; try discriminate.
  apply has_fuel_bind; [|discriminate].
  apply has_fuel_async_with_storage, Hcheck.
Qed.

(** X21. The recursion of [open] through [_check_bad_connection] and
    [restart_connection] is at most two deep: with two units of fuel [open]
    never runs out of it, whatever the database answers and whether or
    not the storage lock is free. *)
Lemma open_fuel_suffices (fuel : nat) : has_fuel (open (S (S fuel))).
Proof.
  cbn [open]. apply has_fuel_open_with. intros ex.
  apply holds_lock_check_bad_connection_with,
    holds_lock_restart_connection_with, holds_lock_open_with.
Qed.

(** ** Annotations *)

Lemma py_eq_str (v : value) (s : string) :
  py_eq v (VStr s) = true ↔ v = VStr s.
Proof.
  destruct v; cbn; try (split; [discriminate|intros [=]]).
  rewrite String.eqb_eq. split; [now intros ->|now intros [= ->]].
Qed.

Lemma is_trashed_parent (item : row) :
  is_trashed item = true ↔ row_get item "parent_id" = Some (VStr TRASHED_ID).
Proof.
  unfold is_trashed. destruct (row_get item "parent_id") as [parent|].
  - rewrite py_eq_str. split; [now intros ->|now intros [= ->]].
  - split; discriminate.
Qed.

Lemma get_annotation_trashed (st : state) (oid id sql : string)
    (stmt : PreparedStatement) (record : row) :
  Transaction._lock (txn st) = false →
  sql_get "GET_ANNOTATION" (_objects_table_name (self st)) = Some sql →
  conn_prepare (calls (history st)) (Transaction._db_conn (txn st)) sql
  = Ok stmt →
  stmt_fetchrow (calls (history st)
                 ++ [EvPrepare (Transaction._db_conn (txn st)) sql])
                stmt [VStr oid; VStr id]
  = Ok (Some record) →
  row_get record "parent_id" = Some (VStr TRASHED_ID) →
  run (get_annotation oid id) st
  = (Returned None,
     {| self := self st; txn := txn st;
        history := history st
          ++ [EvLockAcquire TransactionLock;
              EvPrepare (Transaction._db_conn (txn st)) sql;
              EvStmtFetchrow stmt [VStr oid; VStr id];
              EvLockRelease TransactionLock] |}).
Proof.
  open_state st. intros -> Hsql Hprepare Hrow Hparent.
  unfold get_annotation, get_one_row. run_steps.
  rewrite (run_sql_get _ _ _ _ Hsql). run_steps.
  seen_calls. rewrite Hprepare. run_steps.
  seen_calls. rewrite Hrow. run_steps.
  unfold getitem. rewrite Hparent. run_steps.
  cbn [py_eq]. rewrite String.eqb_refl. run_steps. same_state.
Qed.

Lemma keep_not_trashed_filter (result : list row) (st : state) :
  Forall (λ item, is_Some (row_get item "parent_id")) result →
  run (keep_not_trashed result) st
  = (Returned (List.filter (λ item, negb (is_trashed item)) result), st).
Proof.
  induction 1 as [|item rest [parent Hparent] _ IH]; [reflexivity|].
  cbn [keep_not_trashed List.filter]. unfold getitem, is_trashed.
  rewrite Hparent. run_steps. rewrite IH. run_steps.
  now destruct (py_eq parent (VStr TRASHED_ID)).
Qed.

Lemma get_annotation_keys_filter (st : state) (oid sql : string)
    (result : list row) :
  Transaction._lock (txn st) = false →
  sql_get "GET_ANNOTATIONS_KEYS" (_objects_table_name (self st)) = Some sql →
  conn_fetch (calls (history st)) (Transaction._db_conn (txn st)) sql
    [VStr oid]
  = Ok result →
  Forall (λ item, is_Some (row_get item "parent_id")) result →
  run (get_annotation_keys oid) st
  = (Returned (List.filter (λ item, negb (is_trashed item)) result),
     {| self := self st; txn := txn st;
        history := history st
          ++ [EvLockAcquire TransactionLock;
              EvFetch (Transaction._db_conn (txn st)) sql [VStr oid];
              EvLockRelease TransactionLock] |}).
Proof.
  open_state st. intros -> Hsql Hfetch Hcolumns.
  unfold get_annotation_keys. run_steps.
  rewrite (run_sql_get _ _ _ _ Hsql). run_steps.
  seen_calls. rewrite Hfetch. run_steps.
  rewrite keep_not_trashed_filter by assumption. same_state.
Qed.

(** C7. Annotation reads filter trashed rows: [get_annotation] returns None
    when the row it fetched has [parent_id] equal to TRASHED_ID, and
    [get_annotation_keys] returns the fetched rows without those whose
    [parent_id] equals TRASHED_ID, in the order they were fetched. *)
Theorem annotation_reads_filter_trash (st : state) (oid : string) :
  Transaction._lock (txn st) = false →
  (∀ (id sql : string) (stmt : PreparedStatement) (record : row),
     sql_get "GET_ANNOTATION" (_objects_table_name (self st)) = Some sql →
     conn_prepare (calls (history st)) (Transaction._db_conn (txn st)) sql
     = Ok stmt →
     stmt_fetchrow (calls (history st)
                    ++ [EvPrepare (Transaction._db_conn (txn st)) sql])
                   stmt [VStr oid; VStr id]
     = Ok (Some record) →
     row_get record "parent_id" = Some (VStr TRASHED_ID) →
     (run (get_annotation oid id) st).1 = Returned None)
  ∧ (∀ (sql : string) (result : list row),
       sql_get "GET_ANNOTATIONS_KEYS" (_objects_table_name (self st))
       = Some sql →
       conn_fetch (calls (history st)) (Transaction._db_conn (txn st)) sql
         [VStr oid]
       = Ok result →
       Forall (λ item, is_Some (row_get item "parent_id")) result →
       (run (get_annotation_keys oid) st).1
       = Returned (List.filter (λ item, negb (is_trashed item)) result)
       ∧ ∀ item,
           item ∈ List.filter (λ item, negb (is_trashed item)) result
           ↔ item ∈ result
             ∧ row_get item "parent_id" ≠ Some (VStr TRASHED_ID)).
Proof.
  intros Hfree. split.
  - intros id sql stmt record Hsql Hprepare Hrow Hparent.
    now rewrite (get_annotation_trashed st oid id sql stmt record).
  - intros sql result Hsql Hfetch Hcolumns.
    rewrite (get_annotation_keys_filter st oid sql result) by assumption.
    split; [reflexivity|]. intros item.
    rewrite !list_elem_of_In, List.filter_In, negb_true_iff.
    rewrite <- is_trashed_parent, not_true_iff_false. reflexivity.
Qed.

(** ** Blob chunks *)

Lemma read_blob_chunks_query (bid : string) (st : state) :
  run (read_blob_chunks bid) st
  = (match conn_cursor (calls (history st)) (Transaction._db_conn (txn st))
             bid [] with
     | Ok records => Returned records
     | Err e => Raised e
     end,
     record_event (EvCursor (Transaction._db_conn (txn st)) bid []) st).
Proof.
  unfold read_blob_chunks. run_steps. now destruct (conn_cursor _ _ _ _).
Qed.

Lemma items_query (oid sql : string) (st : state) :
  sql_get "GET_CHILDREN" (_objects_table_name (self st)) = Some sql →
  run (items oid) st
  = (match conn_cursor (calls (history st)) (Transaction._db_conn (txn st))
             sql [VStr oid] with
     | Ok records => Returned records
     | Err e => Raised e
     end,
     record_event (EvCursor (Transaction._db_conn (txn st)) sql [VStr oid]) st).
Proof.
  intros Hsql. unfold items. run_steps.
  rewrite (run_sql_get _ _ _ _ Hsql). run_steps.
  now destruct (conn_cursor _ _ _ _).
Qed.

(** ** Count-returning statements *)

Lemma wrapped_registrations (name sql : string) :
  (name, sql) ∈ registrations →
  String.prefix "WITH rows AS (" sql = true
  ↔ name ∈ ["UPSERT"; "NAIVE_UPSERT"; "UPDATE"; "NAIVE_UPDATE"].
Proof.
  intros Hin. unfold registrations in Hin.
  repeat (apply elem_of_cons in Hin as [[= -> ->]|Hin]);
    [..|now apply elem_of_nil in Hin].
  all: split; [intros Hprefix|intros Hname].
  all: try discriminate Hprefix.
  all: try reflexivity.
  all: try (repeat constructor; fail).
  all: exfalso; repeat (apply elem_of_cons in Hname as [[=]|Hname]);
    now apply elem_of_nil in Hname.
Qed.

(** C6. [read_blob_chunks] hands the [bid] itself to the cursor as the text
    of the query, with no parameter: no statement of the catalogue is looked
    up, unlike in [items], which opens its cursor on GET_CHILDREN with the
    oid as parameter. *)
Theorem read_blob_chunks_sends_bid_as_query (bid oid : string) (st : state) :
  run (read_blob_chunks bid) st
  = (match conn_cursor (calls (history st)) (Transaction._db_conn (txn st))
             bid [] with
     | Ok records => Returned records
     | Err e => Raised e
     end,
     record_event (EvCursor (Transaction._db_conn (txn st)) bid []) st)
  ∧ ∃ sql,
      sql_get "GET_CHILDREN" (_objects_table_name (self st)) = Some sql
      ∧ run (items oid) st
        = (match conn_cursor (calls (history st))
                   (Transaction._db_conn (txn st)) sql [VStr oid] with
           | Ok records => Returned records
           | Err e => Raised e
           end,
           record_event
             (EvCursor (Transaction._db_conn (txn st)) sql [VStr oid]) st).
Proof.
  split; [apply read_blob_chunks_query|].
  destruct (_sql_statements !! "GET_CHILDREN") as [template|] eqn:Hregistered;
    [|discriminate Hregistered].
  exists (format_table_name template (_objects_table_name (self st))).
  pose proof (sql_get_registered _ _ (_objects_table_name (self st))
                Hregistered) as Hsql.
  split; [exact Hsql|]. now apply items_query.
Qed.

(** * Further properties of the storage methods *)

(** ** The registry of statements *)

Lemma registered_later (calls_made : list (string * string))
    (statements : gmap string string) (name : string) :
  name ∉ calls_made.*1 →
  foldl (λ statements entry, register_sql entry.1 entry.2 statements)
        statements calls_made !! name
  = statements !! name.
Proof.
  revert statements.
  induction calls_made as [|[name' sql'] rest IH]; intros statements Hfresh;
    [reflexivity|].
  cbn [foldl fmap list_fmap fst] in *.
  apply not_elem_of_cons in Hfresh as [Hne Hfresh].
  rewrite IH by assumption. unfold register_sql. cbn [fst snd].
  now apply lookup_insert_ne.
Qed.

Lemma registered_once (calls_made : list (string * string))
    (statements : gmap string string) (name sql : string) :
  NoDup calls_made.*1 →
  (name, sql) ∈ calls_made →
  foldl (λ statements entry, register_sql entry.1 entry.2 statements)
        statements calls_made !! name
  = Some sql.
Proof.
  revert statements.
  induction calls_made as [|[name' sql'] rest IH]; intros statements Hnodup Hin.
  - now apply elem_of_nil in Hin.
  - cbn [foldl fmap list_fmap fst] in *.
    apply NoDup_cons in Hnodup as [Hfresh Hnodup].
    apply elem_of_cons in Hin as [[= -> ->]|Hin].
    + rewrite registered_later by assumption.
      unfold register_sql. cbn [fst snd]. apply lookup_insert_eq.
    + now apply IH.
Qed.

Lemma registrations_names_distinct : NoDup registrations.*1.
Proof.
  unfold registrations. cbn [fmap list_fmap fst].
  apply (bool_decide_unpack _). vm_compute. exact I.
Qed.

Lemma wrapped_is_prefixed (write : string) :
  String.prefix "WITH rows AS (" (_wrap_return_count write) = true.
Proof. reflexivity. Qed.

(** X1. The count-returning statements of the catalogue.  No two
    [register_sql] calls of the module use the same name, so none
    overwrites another.  UPSERT, NAIVE_UPSERT, UPDATE and NAIVE_UPDATE are
    registered as [_wrap_return_count] of their write (NAIVE_UPSERT with and
    without the guard on [otid], NAIVE_UPDATE with and without
    [AND tid = $7::int]), and no other registered statement is
    [_wrap_return_count] of anything. *)
Theorem count_returning_statements_are_the_wrapped_ones :
  NoDup registrations.*1
  ∧ (∀ name write,
       (name, write)
       ∈ [("UPSERT", NAIVE_UPSERT +:+ nl +:+ "WHERE" +:+ nl
                     +:+ "    tid = EXCLUDED.otid");
          ("NAIVE_UPSERT", NAIVE_UPSERT);
          ("UPDATE", NAIVE_UPDATE +:+ " AND tid = $7::int");
          ("NAIVE_UPDATE", NAIVE_UPDATE)] →
       (name, _wrap_return_count write) ∈ registrations)
  ∧ (∀ name sql,
       (name, sql) ∈ registrations →
       (∃ write, sql = _wrap_return_count write)
       ↔ name ∈ ["UPSERT"; "NAIVE_UPSERT"; "UPDATE"; "NAIVE_UPDATE"]).
Proof.
  split; [exact registrations_names_distinct|]. split.
  - intros name write Hin. unfold registrations.
    repeat (apply elem_of_cons in Hin as [[= -> ->]|Hin]);
      [..|now apply elem_of_nil in Hin].
    all: repeat first [apply list_elem_of_here | apply list_elem_of_further].
  - intros name sql Hin. split.
    + intros [write ->]. apply (wrapped_registrations _ _ Hin).
      apply wrapped_is_prefixed.
    + intros Hname. unfold registrations in Hin.
      repeat (apply elem_of_cons in Hin as [[= -> ->]|Hin]);
        [..|now apply elem_of_nil in Hin].
      all: try (eexists; reflexivity).
      all: exfalso; repeat (apply elem_of_cons in Hname as [[=]|Hname]);
        now apply elem_of_nil in Hname.
Qed.

(** Names a statement of the catalogue. *)
Ltac registered_statement name template Hregistered :=
  assert (Hregistered : ∃ template, _sql_statements !! name = Some template)
    by (eexists; unfold _sql_statements; apply registered_once;
        [exact registrations_names_distinct
        |unfold registrations;
         repeat first [apply list_elem_of_here | apply list_elem_of_further]]);
  destruct Hregistered as [template Hregistered].

(** ** Reads of single objects *)

Lemma load_run (oid sql : string) (st : state) :
  Transaction._lock (txn st) = false →
  sql_get "GET_OID" (_objects_table_name (self st)) = Some sql →
  run (load oid) st
  = (match conn_fetchrow (calls (history st)) (Transaction._db_conn (txn st))
             sql [VStr oid] with
     | Ok (Some record) => Returned record
     | Ok None => Raised (KeyError oid)
     | Err e => Raised e
     end,
     {| self := self st; txn := txn st;
        history := history st
          ++ [EvLockAcquire TransactionLock;
              EvFetchrow (Transaction._db_conn (txn st)) sql [VStr oid];
              EvLockRelease TransactionLock] |}).
Proof.
  open_state st. intros -> Hsql.
  unfold load, get_one_row. run_steps.
  rewrite (run_sql_get _ _ _ _ Hsql). run_steps.
  seen_calls. destruct (conn_fetchrow _ _ _ _) as [[record|]|e]; run_steps;
    same_state.
Qed.

(** X2. [load] asks the session of the transaction for the GET_OID row of
    the oid, under the transaction lock: it returns the row, raises
    KeyError(oid) when there is none, and passes an error of the driver on;
    in every case the lock is free again. *)
Theorem load_missing_object_is_key_error (oid : string) (st : state) :
  Transaction._lock (txn st) = false →
  ∃ sql,
    sql_get "GET_OID" (_objects_table_name (self st)) = Some sql
    ∧ run (load oid) st
      = (match conn_fetchrow (calls (history st))
                 (Transaction._db_conn (txn st)) sql [VStr oid] with
         | Ok (Some record) => Returned record
         | Ok None => Raised (KeyError oid)
         | Err e => Raised e
         end,
         {| self := self st; txn := txn st;
            history := history st
              ++ [EvLockAcquire TransactionLock;
                  EvFetchrow (Transaction._db_conn (txn st)) sql [VStr oid];
                  EvLockRelease TransactionLock] |}).
Proof.
  intros Hfree. registered_statement "GET_OID" template Hregistered.
  pose proof (sql_get_registered _ _ (_objects_table_name (self st))
                Hregistered) as Hsql.
  eexists. split; [exact Hsql|]. now apply load_run.
Qed.

Lemma has_key_run (parent_oid id sql : string) (st : state) :
  Transaction._lock (txn st) = false →
  sql_get "EXIST_CHILD" (_objects_table_name (self st)) = Some sql →
  run (has_key parent_oid id) st
  = (match conn_fetchrow (calls (history st)) (Transaction._db_conn (txn st))
             sql [VStr parent_oid; VStr id] with
     | Ok result => Returned (bool_decide (is_Some result))
     | Err e => Raised e
     end,
     {| self := self st; txn := txn st;
        history := history st
          ++ [EvLockAcquire TransactionLock;
              EvFetchrow (Transaction._db_conn (txn st)) sql
                [VStr parent_oid; VStr id];
              EvLockRelease TransactionLock] |}).
Proof.
  open_state st. intros -> Hsql.
  unfold has_key, get_one_row. run_steps.
  rewrite (run_sql_get _ _ _ _ Hsql). run_steps.
  seen_calls. destruct (conn_fetchrow _ _ _ _) as [[record|]|e]; run_steps;
    same_state.
Qed.

(** X3. [has_key] turns the EXIST_CHILD row of (parent, id) into a
    boolean: True when the driver found a row, False when it found none;
    it never raises KeyError, and an error of the driver is passed on with
    the transaction lock free again. *)
Theorem has_key_reports_presence (parent_oid id : string) (st : state) :
  Transaction._lock (txn st) = false →
  ∃ sql,
    sql_get "EXIST_CHILD" (_objects_table_name (self st)) = Some sql
    ∧ run (has_key parent_oid id) st
      = (match conn_fetchrow (calls (history st))
                 (Transaction._db_conn (txn st)) sql
                 [VStr parent_oid; VStr id] with
         | Ok result => Returned (bool_decide (is_Some result))
         | Err e => Raised e
         end,
         {| self := self st; txn := txn st;
            history := history st
              ++ [EvLockAcquire TransactionLock;
                  EvFetchrow (Transaction._db_conn (txn st)) sql
                    [VStr parent_oid; VStr id];
                  EvLockRelease TransactionLock] |}).
Proof.
  intros Hfree. registered_statement "EXIST_CHILD" template Hregistered.
  pose proof (sql_get_registered _ _ (_objects_table_name (self st))
                Hregistered) as Hsql.
  eexists. split; [exact Hsql|]. now apply has_key_run.
Qed.

(** ** The tid sequence *)

Lemma get_current_tid_run (st : state) (stmt : PreparedStatement) :
  _lock (self st) = false →
  _stmt_max_tid (self st) = Some stmt →
  run get_current_tid st
  = (match stmt_fetchval (calls (history st)) stmt with
     | Ok tid => Returned tid
     | Err e => Raised e
     end,
     {| self := self st; txn := txn st;
        history := history st
          ++ [EvLockAcquire StorageLock; EvStmtFetchval stmt;
              EvLockRelease StorageLock] |}).
Proof.
  open_state st. intros -> ->.
  unfold get_current_tid. run_steps.
  seen_calls. destruct (stmt_fetchval _ _); same_state.
Qed.

(** X4. [get_current_tid] makes one call, [fetchval] on the statement
    prepared from MAX_TID, under the storage lock; it passes the answer or
    the error on as it came.  Unlike [get_next_tid] it does not look at the
    error: an InterfaceError starts no recovery of the pool. *)
Theorem get_current_tid_never_restarts (st : state) (stmt : PreparedStatement) :
  _lock (self st) = false →
  _stmt_max_tid (self st) = Some stmt →
  run get_current_tid st
  = (match stmt_fetchval (calls (history st)) stmt with
     | Ok tid => Returned tid
     | Err e => Raised e
     end,
     {| self := self st; txn := txn st;
        history := history st
          ++ [EvLockAcquire StorageLock; EvStmtFetchval stmt;
              EvLockRelease StorageLock] |})
  ∧ calls (history (run get_current_tid st).2)
    = calls (history st) ++ [EvStmtFetchval stmt].
Proof.
  intros Hfree Hstmt. rewrite (get_current_tid_run st stmt) by assumption.
  split; [reflexivity|]. cbn [snd history].
  change [EvLockAcquire StorageLock; EvStmtFetchval stmt;
          EvLockRelease StorageLock]
    with ([EvLockAcquire StorageLock] ++ [EvStmtFetchval stmt]
          ++ [EvLockRelease StorageLock]).
  rewrite !app_assoc. now seen_calls.
Qed.

Lemma get_next_tid_answer (fuel : nat) (st : state) (stmt : PreparedStatement)
    (tid : value) :
  _lock (self st) = false →
  _stmt_next_tid (self st) = Some stmt →
  stmt_fetchval (calls (history st)) stmt = Ok tid →
  run (get_next_tid fuel) st
  = (Returned tid,
     {| self := self st; txn := txn st;
        history := history st
          ++ [EvLockAcquire StorageLock; EvStmtFetchval stmt;
              EvLockRelease StorageLock] |}).
Proof.
  open_state st. intros -> -> Hfetch.
  unfold get_next_tid. run_steps.
  seen_calls. rewrite Hfetch. same_state.
Qed.

Lemma get_next_tid_error (fuel : nat) (st : state) (stmt : PreparedStatement)
    (e : exn) :
  _lock (self st) = false →
  _stmt_next_tid (self st) = Some stmt →
  stmt_fetchval (calls (history st)) stmt = Err e →
  (∀ msg, e ≠ InterfaceError msg) →
  run (get_next_tid fuel) st
  = (Raised e,
     {| self := self st; txn := txn st;
        history := history st
          ++ [EvLockAcquire StorageLock; EvStmtFetchval stmt;
              EvLockRelease StorageLock] |}).
Proof.
  open_state st. intros -> -> Hfetch Hother.
  unfold get_next_tid. run_steps.
  seen_calls. rewrite Hfetch.
  destruct e; try same_state. now destruct (Hother msg).
Qed.

Lemma get_next_tid_interface_error (fuel : nat) (st : state)
    (stmt : PreparedStatement) (msg : string) :
  _lock (self st) = false →
  _stmt_next_tid (self st) = Some stmt →
  stmt_fetchval (calls (history st)) stmt = Err (InterfaceError msg) →
  in_tuple msg bad_connection_messages = false
  ∨ PrimFloat.ltb BAD_CONNECTION_RESTART_DELAY
      (PrimFloat.sub
         (time_time (calls (history st) ++ [EvStmtFetchval stmt]))
         (_connection_initialized_on (self st))) = false →
  run (get_next_tid fuel) st
  = (Raised (InterfaceError msg),
     {| self := self st; txn := txn st;
        history := history st
          ++ [EvLockAcquire StorageLock; EvStmtFetchval stmt]
          ++ (if in_tuple msg bad_connection_messages then [EvTime] else [])
          ++ [EvLockRelease StorageLock] |}).
Proof.
  open_state st. intros -> -> Hfetch Hno_restart.
  unfold get_next_tid. run_steps.
  seen_calls. rewrite Hfetch.
  unfold _check_bad_connection, _check_bad_connection_with. cbn [str_exn].
  destruct (in_tuple msg bad_connection_messages) eqn:Hmsg.
  - destruct Hno_restart as [|Hearly]; [discriminate|].
    run_steps. seen_calls. rewrite Hearly. run_steps. same_state.
  - run_steps. same_state.
Qed.

(** X5. [get_next_tid] returns what [fetchval] on the NEXT_TID statement
    answers.  When the statement raises an InterfaceError whose message is
    not one of the three of a closed connection, or the restart delay has
    not passed, the same error is raised again; every other error is passed
    on without a look at the clock.  The storage lock is free afterwards
    and the storage is as it was. *)
Theorem get_next_tid_reraises (fuel : nat) (st : state)
    (stmt : PreparedStatement) :
  _lock (self st) = false →
  _stmt_next_tid (self st) = Some stmt →
  (∀ tid,
     stmt_fetchval (calls (history st)) stmt = Ok tid →
     run (get_next_tid fuel) st
     = (Returned tid,
        {| self := self st; txn := txn st;
           history := history st
             ++ [EvLockAcquire StorageLock; EvStmtFetchval stmt;
                 EvLockRelease StorageLock] |}))
  ∧ (∀ msg,
       stmt_fetchval (calls (history st)) stmt = Err (InterfaceError msg) →
       in_tuple msg bad_connection_messages = false
       ∨ PrimFloat.ltb BAD_CONNECTION_RESTART_DELAY
           (PrimFloat.sub
              (time_time (calls (history st) ++ [EvStmtFetchval stmt]))
              (_connection_initialized_on (self st))) = false →
       run (get_next_tid fuel) st
       = (Raised (InterfaceError msg),
          {| self := self st; txn := txn st;
             history := history st
               ++ [EvLockAcquire StorageLock; EvStmtFetchval stmt]
               ++ (if in_tuple msg bad_connection_messages
                   then [EvTime] else [])
               ++ [EvLockRelease StorageLock] |}))
  ∧ (∀ e,
       stmt_fetchval (calls (history st)) stmt = Err e →
       (∀ msg, e ≠ InterfaceError msg) →
       run (get_next_tid fuel) st
       = (Raised e,
          {| self := self st; txn := txn st;
             history := history st
               ++ [EvLockAcquire StorageLock; EvStmtFetchval stmt;
                   EvLockRelease StorageLock] |})).
Proof.
  intros Hfree Hstmt. split; [|split].
  - intros tid Hfetch. now apply get_next_tid_answer.
  - intros msg Hfetch Hno_restart. now apply get_next_tid_interface_error.
  - intros e Hfetch Hother. now apply get_next_tid_error.
Qed.

(** [restart_connection] started while the storage lock is held, as all
    its callers do. *)
Lemma restart_connection_under_lock (fuel : nat) (timeout : float) (st : state)
    (old new : Pool) (conn : Connection) (next_tid max_tid : PreparedStatement) :
  _pool (self st) = Some old →
  let args := {| dsn := _dsn (self st); max_size := _pool_size (self st);
                 min_size := 2; loop := _loop old;
                 connection_class := pg_connection_class;
                 kw := _connection_options (self st) |} in
  let acquire_timeout := _conn_acquire_timeout (self st) in
  let seen := calls (history st) in
  (pool_close seen old timeout = Ok tt
   ∨ pool_close seen old timeout = Err TimeoutError) →
  create_pool (seen ++ [EvPoolClose old timeout; EvPoolTerminate old]) args
  = Ok new →
  pool_acquire (seen ++ [EvPoolClose old timeout; EvPoolTerminate old;
                         EvCreatePool args]) new acquire_timeout
  = Ok conn →
  conn_prepare (seen ++ [EvPoolClose old timeout; EvPoolTerminate old;
                         EvCreatePool args; EvPoolAcquire new acquire_timeout])
               conn NEXT_TID
  = Ok next_tid →
  conn_prepare (seen ++ [EvPoolClose old timeout; EvPoolTerminate old;
                         EvCreatePool args; EvPoolAcquire new acquire_timeout;
                         EvPrepare conn NEXT_TID])
               conn MAX_TID
  = Ok max_tid →
  (run (restart_connection (S fuel) timeout) st).1
  = Raised (ConflictError "Restarting connection to postgresql" None)
  ∧ _pool (self (run (restart_connection (S fuel) timeout) st).2) = Some new
  ∧ _read_conn (self (run (restart_connection (S fuel) timeout) st).2)
    = Some conn
  ∧ _stmt_next_tid (self (run (restart_connection (S fuel) timeout) st).2)
    = Some next_tid
  ∧ _stmt_max_tid (self (run (restart_connection (S fuel) timeout) st).2)
    = Some max_tid
  ∧ _lock (self (run (restart_connection (S fuel) timeout) st).2)
    = _lock (self st)
  ∧ txn (run (restart_connection (S fuel) timeout) st).2 = txn st.
Proof.
  cbv zeta. intros Hpool Hclose Hcreate Hacquire Hnext Hmax.
  rewrite (restart_connection_recovers fuel timeout st old new conn
             next_tid max_tid) by assumption.
  repeat split.
Qed.

(** X6. When the NEXT_TID statement raises an InterfaceError of a closed
    connection and the restart delay has passed, [get_next_tid] restarts
    the connection: if the database lets the pool be closed, recreated, a
    session be acquired and the two TID statements be prepared, the caller
    gets ConflictError in place of the InterfaceError, the storage holds the
    new pool, session and statements, and the storage lock is free. *)
Theorem get_next_tid_restarts_connection (fuel : nat) (st : state)
    (stmt : PreparedStatement) (msg : string) (old new : Pool)
    (conn : Connection) (next_tid max_tid : PreparedStatement) :
  _lock (self st) = false →
  _stmt_next_tid (self st) = Some stmt →
  _pool (self st) = Some old →
  stmt_fetchval (calls (history st)) stmt = Err (InterfaceError msg) →
  in_tuple msg bad_connection_messages = true →
  PrimFloat.ltb BAD_CONNECTION_RESTART_DELAY
    (PrimFloat.sub (time_time (calls (history st) ++ [EvStmtFetchval stmt]))
                   (_connection_initialized_on (self st))) = true →
  let args := {| dsn := _dsn (self st); max_size := _pool_size (self st);
                 min_size := 2; loop := _loop old;
                 connection_class := pg_connection_class;
                 kw := _connection_options (self st) |} in
  let acquire_timeout := _conn_acquire_timeout (self st) in
  let timeout := default_restart_timeout in
  let seen := calls (history st) ++ [EvStmtFetchval stmt; EvTime] in
  (pool_close seen old timeout = Ok tt
   ∨ pool_close seen old timeout = Err TimeoutError) →
  create_pool (seen ++ [EvPoolClose old timeout; EvPoolTerminate old]) args
  = Ok new →
  pool_acquire (seen ++ [EvPoolClose old timeout; EvPoolTerminate old;
                         EvCreatePool args]) new acquire_timeout
  = Ok conn →
  conn_prepare (seen ++ [EvPoolClose old timeout; EvPoolTerminate old;
                         EvCreatePool args; EvPoolAcquire new acquire_timeout])
               conn NEXT_TID
  = Ok next_tid →
  conn_prepare (seen ++ [EvPoolClose old timeout; EvPoolTerminate old;
                         EvCreatePool args; EvPoolAcquire new acquire_timeout;
                         EvPrepare conn NEXT_TID])
               conn MAX_TID
  = Ok max_tid →
  (run (get_next_tid (S fuel)) st).1
  = Raised (ConflictError "Restarting connection to postgresql" None)
  ∧ _lock (self (run (get_next_tid (S fuel)) st).2) = false
  ∧ _pool (self (run (get_next_tid (S fuel)) st).2) = Some new
  ∧ _read_conn (self (run (get_next_tid (S fuel)) st).2) = Some conn
  ∧ _stmt_next_tid (self (run (get_next_tid (S fuel)) st).2) = Some next_tid
  ∧ _stmt_max_tid (self (run (get_next_tid (S fuel)) st).2) = Some max_tid.
Proof.
  cbv zeta. revert st. intros [[] [] h]. state_fields.
  intros -> -> -> Hfetch Hmsg Hlate Hclose Hcreate Hacquire Hnext Hmax.
  rewrite <- ?app_assoc in Hcreate, Hacquire, Hnext, Hmax.
  cbn [app] in Hcreate, Hacquire, Hnext, Hmax.
  unfold get_next_tid. run_steps.
  seen_calls. rewrite Hfetch. run_steps.
  rewrite check_bad_connection_restarts;
    [|exact Hmsg|state_fields; seen_calls; exact Hlate].
  match goal with
  | |- context [run (restart_connection ?f ?t) ?st1] =>
      pose proof (restart_connection_under_lock fuel t st1 old new conn
                    next_tid max_tid eq_refl) as Hrestart;
      cbv zeta in Hrestart; revert Hrestart; state_fields; seen_calls;
      intros Hrestart;
      destruct (Hrestart Hclose Hcreate Hacquire Hnext Hmax)
        as (Hout & Hpool' & Hconn' & Hnext' & Hmax' & Hlock' & _);
      clear Hrestart;
      destruct (run (restart_connection f t) st1) as [out st2]
  end.
  cbn [fst snd] in *. subst out. state_fields.
  destruct st2 as [[] ? ?]. state_fields. cbn in *. now subst.
Qed.

(** ** The pool and its sessions *)

(** X7. [get_pool] creates the pool on the first call only: a storage that
    has a pool returns it without a call to the driver, a storage without
    one creates it from its dsn and pool size, keeps it, and returns the
    same pool on the next call, whatever loop and options that call names.
    When the creation fails nothing is kept. *)
Theorem get_pool_creates_the_pool_once (loop loop' : option nat)
    (kw kw' : list (string * value)) (st : state) :
  (∀ pool, _pool (self st) = Some pool →
     run (get_pool loop kw) st = (Returned pool, st))
  ∧ (_pool (self st) = None →
     let args := {| dsn := _dsn (self st); max_size := _pool_size (self st);
                    min_size := 2; connection_class := pg_connection_class;
                    loop := loop; kw := kw |} in
     (∀ pool, create_pool (calls (history st)) args = Ok pool →
        run (get_pool loop kw;; get_pool loop' kw') st
        = (Returned pool,
           {| self := with_pool (Some pool) (self st); txn := txn st;
              history := history st ++ [EvCreatePool args] |}))
     ∧ (∀ e, create_pool (calls (history st)) args = Err e →
          run (get_pool loop kw) st
          = (Raised e,
             {| self := self st; txn := txn st;
                history := history st ++ [EvCreatePool args] |}))).
Proof.
  split.
  - intros pool Hpool. unfold get_pool. run_steps. now rewrite Hpool.
  - cbv zeta. intros Hpool. split.
    + intros pool Hcreate. unfold get_pool. run_steps.
      rewrite Hpool. run_steps. rewrite Hcreate. run_steps. reflexivity.
    + intros e Hcreate. unfold get_pool. run_steps.
      rewrite Hpool. run_steps. now rewrite Hcreate.
Qed.

(** X8. [open] on a storage that has its pool: a session the pool hands
    out is returned, and an error of [pool.acquire] that is not an
    InterfaceError reaches the caller; in both cases [open] makes this one
    call and takes no lock. *)
Theorem open_hands_out_a_session (fuel : nat) (st : state) (pool : Pool) :
  _pool (self st) = Some pool →
  let timeout := _conn_acquire_timeout (self st) in
  (∀ conn,
     pool_acquire (calls (history st)) pool timeout = Ok conn →
     run (open (S fuel)) st
     = (Returned (Some conn), record_event (EvPoolAcquire pool timeout) st))
  ∧ (∀ e,
       pool_acquire (calls (history st)) pool timeout = Err e →
       (∀ msg, e ≠ InterfaceError msg) →
       run (open (S fuel)) st
       = (Raised e, record_event (EvPoolAcquire pool timeout) st)).
Proof.
  cbv zeta. intros Hpool. split.
  - intros conn Hacquire. cbn [open]. unfold open_with, get_pool.
    run_steps. rewrite Hpool. run_steps. rewrite Hacquire. now run_steps.
  - intros e Hacquire Hother. cbn [open]. unfold open_with, get_pool.
    run_steps. rewrite Hpool. run_steps. rewrite Hacquire. run_steps.
    destruct e; try reflexivity. now destruct (Hother msg).
Qed.

Lemma initialize_tid_statements_run (st : state) (conn : Connection)
    (next_tid max_tid : PreparedStatement) :
  _read_conn (self st) = Some conn →
  conn_prepare (calls (history st)) conn NEXT_TID = Ok next_tid →
  conn_prepare (calls (history st) ++ [EvPrepare conn NEXT_TID]) conn MAX_TID
  = Ok max_tid →
  run initialize_tid_statements st
  = (Returned tt,
     {| self := with_stmt_max_tid (Some max_tid)
                  (with_stmt_next_tid (Some next_tid) (self st));
        txn := txn st;
        history := history st
                   ++ [EvPrepare conn NEXT_TID; EvPrepare conn MAX_TID] |}).
Proof.
  open_state st. intros -> Hnext Hmax.
  unfold initialize_tid_statements. run_steps.
  rewrite Hnext. run_steps. seen_calls. rewrite Hmax. run_steps. same_state.
Qed.

(** X9. [initialize_tid_statements] prepares NEXT_TID and then MAX_TID on
    the shared read session, and the tid methods use what it prepared:
    afterwards [get_next_tid] returns the answer of the statement prepared
    from NEXT_TID and [get_current_tid] the answer of the one prepared from
    MAX_TID. *)
Theorem tid_methods_use_the_prepared_statements (fuel : nat) (st : state)
    (conn : Connection) (next_tid max_tid : PreparedStatement) :
  _lock (self st) = false →
  _read_conn (self st) = Some conn →
  conn_prepare (calls (history st)) conn NEXT_TID = Ok next_tid →
  conn_prepare (calls (history st) ++ [EvPrepare conn NEXT_TID]) conn MAX_TID
  = Ok max_tid →
  ∃ st1,
    run initialize_tid_statements st = (Returned tt, st1)
    ∧ calls (history st1)
      = calls (history st) ++ [EvPrepare conn NEXT_TID; EvPrepare conn MAX_TID]
    ∧ (∀ tid,
         stmt_fetchval (calls (history st1)) next_tid = Ok tid →
         (run (get_next_tid fuel) st1).1 = Returned tid
         ∧ calls (history (run (get_next_tid fuel) st1).2)
           = calls (history st1) ++ [EvStmtFetchval next_tid])
    ∧ (∀ tid,
         stmt_fetchval (calls (history st1)) max_tid = Ok tid →
         (run get_current_tid st1).1 = Returned tid
         ∧ calls (history (run get_current_tid st1).2)
           = calls (history st1) ++ [EvStmtFetchval max_tid]).
Proof.
  intros Hfree Hconn Hnext Hmax. eexists. split.
  { now apply (initialize_tid_statements_run st conn next_tid max_tid). }
  cbn [history]. split; [|split].
  - change [EvPrepare conn NEXT_TID; EvPrepare conn MAX_TID]
      with ([EvPrepare conn NEXT_TID] ++ [EvPrepare conn MAX_TID]).
    rewrite app_assoc. now seen_calls.
  - intros tid Hfetch.
    rewrite (get_next_tid_answer fuel _ next_tid tid);
      [|exact Hfree|reflexivity|exact Hfetch].
    split; [reflexivity|]. cbn [snd history].
    change [EvLockAcquire StorageLock; EvStmtFetchval next_tid;
            EvLockRelease StorageLock]
      with ([EvLockAcquire StorageLock] ++ [EvStmtFetchval next_tid]
            ++ [EvLockRelease StorageLock]).
    rewrite !app_assoc. now seen_calls.
  - intros tid Hfetch.
    rewrite (get_current_tid_run _ max_tid); [|exact Hfree|reflexivity].
    cbn [history]. rewrite Hfetch. split; [reflexivity|]. cbn [snd history].
    change [EvLockAcquire StorageLock; EvStmtFetchval max_tid;
            EvLockRelease StorageLock]
      with ([EvLockAcquire StorageLock] ++ [EvStmtFetchval max_tid]
            ++ [EvLockRelease StorageLock]).
    rewrite !app_assoc. now seen_calls.
Qed.

(** The calls among the events a history grew by. *)
Lemma calls_suffix (h more : list event) :
  calls (h ++ more) = calls h ++ List.filter is_call more.
Proof. apply calls_app. Qed.

(** [restart_connection] when the new pool refuses a session with an
    InterfaceError while the storage lock is held: the handler of the inner
    [open] waits for that lock. *)
Lemma restart_connection_session_refused (fuel : nat) (timeout : float)
    (st : state) (old new : Pool) (msg : string) :
  _lock (self st) = true →
  _pool (self st) = Some old →
  let args := {| dsn := _dsn (self st); max_size := _pool_size (self st);
                 min_size := 2; loop := _loop old;
                 connection_class := pg_connection_class;
                 kw := _connection_options (self st) |} in
  let acquire_timeout := _conn_acquire_timeout (self st) in
  let seen := calls (history st) in
  (pool_close seen old timeout = Ok tt
   ∨ pool_close seen old timeout = Err TimeoutError) →
  create_pool (seen ++ [EvPoolClose old timeout; EvPoolTerminate old]) args
  = Ok new →
  pool_acquire (seen ++ [EvPoolClose old timeout; EvPoolTerminate old;
                         EvCreatePool args]) new acquire_timeout
  = Err (InterfaceError msg) →
  run (restart_connection (S fuel) timeout) st
  = (Blocked,
     {| self := with_pool (Some new) (self st); txn := txn st;
        history := history st
          ++ [EvLog ERROR "Connection potentially lost to pg, restarting";
              EvPoolClose old timeout; EvPoolTerminate old; EvCreatePool args;
              EvPoolAcquire new acquire_timeout] |}).
Proof.
  cbv zeta. revert st. intros [[] [] h]. state_fields.
  intros -> -> Hclose Hcreate Hacquire.
  unfold restart_connection, restart_connection_with, get_pool. run_steps.
  seen_calls. destruct Hclose as [Hclose|Hclose]; rewrite Hclose; run_steps.
  all: seen_calls; rewrite Hcreate; run_steps.
  all: cbn [open]; unfold open_with, get_pool; run_steps.
  all: seen_calls; rewrite Hacquire; run_steps.
  all: same_state.
Qed.

(** X10. A session lost twice: [pool.acquire] raises an InterfaceError of a
    closed connection after the restart delay, [open] takes the storage lock
    and restarts the connection, and the new pool refuses its first session
    with an InterfaceError as well.  The inner [open] then waits for the
    storage lock, which the outer one holds: [open] does not finish, and the
    lock stays taken. *)
Theorem open_waits_for_its_own_lock (fuel : nat) (st : state) (old new : Pool)
    (msg msg' : string) :
  _lock (self st) = false →
  _pool (self st) = Some old →
  let args := {| dsn := _dsn (self st); max_size := _pool_size (self st);
                 min_size := 2; loop := _loop old;
                 connection_class := pg_connection_class;
                 kw := _connection_options (self st) |} in
  let acquire_timeout := _conn_acquire_timeout (self st) in
  let timeout := default_restart_timeout in
  pool_acquire (calls (history st)) old acquire_timeout
  = Err (InterfaceError msg) →
  in_tuple msg bad_connection_messages = true →
  PrimFloat.ltb BAD_CONNECTION_RESTART_DELAY
    (PrimFloat.sub
       (time_time (calls (history st) ++ [EvPoolAcquire old acquire_timeout]))
       (_connection_initialized_on (self st))) = true →
  let seen := calls (history st) ++ [EvPoolAcquire old acquire_timeout; EvTime] in
  (pool_close seen old timeout = Ok tt
   ∨ pool_close seen old timeout = Err TimeoutError) →
  create_pool (seen ++ [EvPoolClose old timeout; EvPoolTerminate old]) args
  = Ok new →
  pool_acquire (seen ++ [EvPoolClose old timeout; EvPoolTerminate old;
                         EvCreatePool args]) new acquire_timeout
  = Err (InterfaceError msg') →
  (run (open (S (S fuel))) st).1 = Blocked
  ∧ _lock (self (run (open (S (S fuel))) st).2) = true
  ∧ calls (history (run (open (S (S fuel))) st).2)
    = seen ++ [EvPoolClose old timeout; EvPoolTerminate old;
               EvCreatePool args; EvPoolAcquire new acquire_timeout].
Proof.
  cbv zeta. revert st. intros [[] [] h]. state_fields.
  intros -> -> Hacquire Hmsg Hlate Hclose Hcreate Hacquire'.
  rewrite <- ?app_assoc in Hcreate, Hacquire'.
  cbn [app] in Hcreate, Hacquire'.
  change (open (S (S fuel)))
    with (open_with (_check_bad_connection (S fuel))).
  unfold open_with, get_pool. run_steps.
  rewrite Hacquire. run_steps.
  rewrite check_bad_connection_restarts;
    [|exact Hmsg|state_fields; seen_calls; exact Hlate].
  match goal with
  | |- context [run (restart_connection ?f ?t) ?st1] =>
      pose proof (restart_connection_session_refused fuel t st1 old new msg'
                    eq_refl eq_refl) as Hrestart;
      cbv zeta in Hrestart; revert Hrestart; state_fields; seen_calls;
      intros Hrestart;
      rewrite (Hrestart Hclose Hcreate Hacquire')
  end.
  cbn [fst snd]. state_fields. split; [reflexivity|]. split; [reflexivity|].
  rewrite <- ?app_assoc. cbn [app]. now rewrite calls_suffix.
Qed.

(** ** Locks *)

Lemma releases_locks_ret {A} (a : A) : releases_locks (mret a).
Proof. intros st. now split. Qed.

Lemma releases_locks_raise {A} (e : exn) : releases_locks (raise e : M A).
Proof. intros st. now split. Qed.

Lemma releases_locks_get_state : releases_locks get_state.
Proof. intros st. now split. Qed.

Lemma releases_locks_modify (f : state → state) :
  (∀ st, _lock (self (f st)) = _lock (self st)
         ∧ Transaction._lock (txn (f st)) = Transaction._lock (txn st)) →
  releases_locks (modify f).
Proof. intros Hf st. apply Hf. Qed.

Lemma releases_locks_emit (ev : event) : releases_locks (emit ev).
Proof. now apply releases_locks_modify. Qed.

Lemma releases_locks_call {A} (ev : event) (answer : list event → result A) :
  releases_locks (call ev answer).
Proof. intros st. rewrite run_call. destruct (answer _); now split. Qed.

Lemma releases_locks_attribute {A} (o : option A) (name : string) :
  releases_locks (attribute o name).
Proof. destruct o; [apply releases_locks_ret|apply releases_locks_raise]. Qed.

Lemma releases_locks_getitem (r : row) (column : string) :
  releases_locks (getitem r column).
Proof.
  unfold getitem.
  destruct (row_get r column); [apply releases_locks_ret|apply releases_locks_raise].
Qed.

Lemma releases_locks_sql_get (name table_name : string) :
  releases_locks (_sql_get name table_name).
Proof.
  unfold _sql_get.
  destruct (sql_get name table_name);
    [apply releases_locks_ret|apply releases_locks_raise].
Qed.

Lemma releases_locks_bind {A B} (m : M A) (f : A → M B) :
  releases_locks m → (∀ a, releases_locks (f a)) → releases_locks (m ≫= f).
Proof.
  intros Hm Hf st. rewrite run_bind. specialize (Hm st).
  destruct (run m st) as [[a|e| |] st1]; cbn [fst snd] in *;
    [|exact Hm|exact I|exact I].
  specialize (Hf a st1). destruct Hm as [Hself Htxn].
  destruct (run (f a) st1) as [[b|e| |] st2]; cbn [fst snd] in *;
    try exact I; destruct Hf as [Hself' Htxn']; split; congruence.
Qed.

Lemma releases_locks_try_except {A} (body : M A)
    (handler : exn → option (M A)) :
  releases_locks body →
  (∀ ex, match handler ex with
         | Some clause => releases_locks clause
         | None => True
         end) →
  releases_locks (try_except body handler).
Proof.
  intros Hbody Hhandler st. rewrite run_try_except. specialize (Hbody st).
  destruct (run body st) as [[a|ex| |] st1]; cbn [fst snd] in *;
    [exact Hbody| |exact I|exact I].
  specialize (Hhandler ex).
  destruct (handler ex) as [clause|]; [|exact Hbody].
  specialize (Hhandler st1). destruct Hbody as [Hself Htxn].
  destruct (run clause st1) as [[b|e| |] st2]; cbn [fst snd] in *;
    try exact I; destruct Hhandler as [Hself' Htxn']; split; congruence.
Qed.

Lemma releases_locks_async_with {A} (l : lock_name) (body : M A) :
  releases_locks body → releases_locks (async_with l body).
Proof.
  intros Hbody st. rewrite run_async_with.
  destruct (locked l st) eqn:Hfree; [exact I|].
  specialize (Hbody (record_event (EvLockAcquire l) (set_locked l true st))).
  destruct (run body _) as [[a|e| |] st1]; cbn [fst snd] in *;
    try exact I; destruct Hbody as [Hself Htxn];
    destruct l; cbn in *; split; congruence.
Qed.

(** Goes through the body of a method, one construct at a time. *)
Ltac releases_locks_step :=
  lazymatch goal with
  | |- releases_locks (mret _) => apply releases_locks_ret
  | |- releases_locks (raise _) => apply releases_locks_raise
  | |- releases_locks get_state => apply releases_locks_get_state
  | |- releases_locks (emit _) => apply releases_locks_emit
  | |- releases_locks (log _ _) => apply releases_locks_emit
  | |- releases_locks (store_object _ _) => apply releases_locks_emit
  | |- releases_locks (call _ _) => apply releases_locks_call
  | |- releases_locks (attribute _ _) => apply releases_locks_attribute
  | |- releases_locks (getitem _ _) => apply releases_locks_getitem
  | |- releases_locks (_sql_get _ _) => apply releases_locks_sql_get
  | |- releases_locks (modify _) =>
      apply releases_locks_modify; intros ?; split; reflexivity
  | |- releases_locks (async_with _ _) => apply releases_locks_async_with
  | |- releases_locks (try_except _ _) =>
      apply releases_locks_try_except;
      [|intros []; cbv beta iota; try exact I]
  | |- releases_locks (_ ≫= _) => apply releases_locks_bind; [|intros ?]
  | |- releases_locks (if ?c then _ else _) => destruct c
  | |- releases_locks (match ?x with _ => _ end) => destruct x
  | |- releases_locks (let _ := _ in _) => cbv zeta
  | |- _ => solve [auto]
  end.

Ltac releases_locks_steps := repeat releases_locks_step.

Lemma releases_locks_get_connection : releases_locks get_connection.
Proof. unfold get_connection. releases_locks_steps. Qed.

Lemma releases_locks_get_pool (loop : option nat) (kw : list (string * value)) :
  releases_locks (get_pool loop kw).
Proof. unfold get_pool. releases_locks_steps. Qed.

Lemma releases_locks_initialize_tid_statements :
  releases_locks initialize_tid_statements.
Proof. unfold initialize_tid_statements. releases_locks_steps. Qed.

Lemma releases_locks_restart_connection_with (open : M (option Connection))
    (timeout : float) :
  releases_locks open → releases_locks (restart_connection_with open timeout).
Proof.
  intros Hopen.
  pose proof releases_locks_get_pool.
  pose proof releases_locks_initialize_tid_statements.
  unfold restart_connection_with. releases_locks_steps.
Qed.

Lemma releases_locks_check_bad_connection_with (restart : M unit) (ex : exn) :
  releases_locks restart →
  releases_locks (_check_bad_connection_with restart ex).
Proof.
  intros Hrestart. unfold _check_bad_connection_with. releases_locks_steps.
Qed.

Lemma releases_locks_open_with (check : exn → M unit) :
  (∀ ex, releases_locks (check ex)) → releases_locks (open_with check).
Proof.
  intros Hcheck. pose proof releases_locks_get_pool.
  unfold open_with. releases_locks_steps.
Qed.

Lemma releases_locks_open (fuel : nat) : releases_locks (open fuel).
Proof.
  induction fuel as [|fuel IH]; [intros st; exact I|].
  cbn [open]. apply releases_locks_open_with. intros ex.
  now apply releases_locks_check_bad_connection_with,
    releases_locks_restart_connection_with.
Qed.

Lemma releases_locks_restart_connection (fuel : nat) (timeout : float) :
  releases_locks (restart_connection fuel timeout).
Proof.
  apply releases_locks_restart_connection_with, releases_locks_open.
Qed.

Lemma releases_locks_check_bad_connection (fuel : nat) (ex : exn) :
  releases_locks (_check_bad_connection fuel ex).
Proof.
  apply releases_locks_check_bad_connection_with,
    releases_locks_restart_connection.
Qed.

Lemma releases_locks_get_one_row (sql : string) (args : list value)
    (prepare : bool) :
  releases_locks (get_one_row sql args prepare).
Proof.
  pose proof releases_locks_get_connection.
  unfold get_one_row. releases_locks_steps.
Qed.

Lemma releases_locks_keep_not_trashed (result : list row) :
  releases_locks (keep_not_trashed result).
Proof.
  induction result as [|item rest IH]; cbn [keep_not_trashed];
    releases_locks_steps.
Qed.

Lemma releases_locks_append_ids (records : list row) (keys : list value) :
  releases_locks (append_ids keys records).
Proof.
  revert keys. induction records as [|record rest IH]; intros keys;
    cbn [append_ids]; releases_locks_steps.
Qed.

Lemma releases_locks_count_is_not_one (result : list row) :
  releases_locks (count_is_not_one result).
Proof. unfold count_is_not_one. releases_locks_steps. Qed.

Lemma releases_locks_store (oid : option string) (old_serial : option Z)
    (writer : Writer.t) (obj : Obj) :
  releases_locks (store oid old_serial writer obj).
Proof.
  pose proof releases_locks_get_connection.
  pose proof releases_locks_count_is_not_one.
  unfold store. releases_locks_steps.
Qed.

(** X11. Every method gives back the locks it takes.  Whatever the
    database answers, when a method returns or raises, the storage lock and
    the transaction lock are as the method found them: no path through the
    error handlers of [store], of [open] and the recovery it starts, of
    [get_next_tid], or through any of the reads leaves a lock behind. *)
Theorem methods_release_their_locks (fuel : nat) :
  (∀ oid old_serial writer obj,
     releases_locks (store oid old_serial writer obj))
  ∧ releases_locks (open fuel)
  ∧ (∀ timeout, releases_locks (restart_connection fuel timeout))
  ∧ (∀ ex, releases_locks (_check_bad_connection fuel ex))
  ∧ releases_locks initialize_tid_statements
  ∧ releases_locks (get_next_tid fuel)
  ∧ releases_locks get_current_tid
  ∧ releases_locks get_conflicts
  ∧ (∀ oid, releases_locks (load oid))
  ∧ (∀ oid, releases_locks (keys oid))
  ∧ (∀ oid page page_size, releases_locks (get_page_of_keys oid page page_size))
  ∧ (∀ parent_oid id, releases_locks (get_child parent_oid id))
  ∧ (∀ parent_oid ids, releases_locks (get_children parent_oid ids))
  ∧ (∀ parent_oid id, releases_locks (has_key parent_oid id))
  ∧ (∀ oid, releases_locks (items oid))
  ∧ (∀ oid id, releases_locks (get_annotation oid id))
  ∧ (∀ oid, releases_locks (get_annotation_keys oid))
  ∧ (∀ bid chunk, releases_locks (read_blob_chunk bid chunk))
  ∧ (∀ bid, releases_locks (read_blob_chunks bid))
  ∧ (∀ type_ page page_size,
       releases_locks (_get_page_resources_of_type type_ page page_size)).
Proof.
  pose proof releases_locks_get_connection.
  pose proof releases_locks_get_one_row.
  pose proof releases_locks_keep_not_trashed.
  pose proof releases_locks_append_ids.
  pose proof (releases_locks_check_bad_connection fuel).
  repeat split; intros.
  - apply releases_locks_store.
  - apply releases_locks_open.
  - apply releases_locks_restart_connection.
  - apply releases_locks_check_bad_connection.
  - apply releases_locks_initialize_tid_statements.
  - unfold get_next_tid. releases_locks_steps.
  - unfold get_current_tid. releases_locks_steps.
  - unfold get_conflicts. releases_locks_steps.
  - unfold load. releases_locks_steps.
  - unfold keys. releases_locks_steps.
  - unfold get_page_of_keys. releases_locks_steps.
  - unfold get_child. releases_locks_steps.
  - unfold get_children. releases_locks_steps.
  - unfold has_key. releases_locks_steps.
  - unfold items. releases_locks_steps.
  - unfold get_annotation. releases_locks_steps.
  - unfold get_annotation_keys. releases_locks_steps.
  - unfold read_blob_chunk. releases_locks_steps.
  - unfold read_blob_chunks. releases_locks_steps.
  - unfold _get_page_resources_of_type. releases_locks_steps.
Qed.

(** Looks a statement of the catalogue up by its name. *)
Ltac lookup_registered name :=
  let template := fresh "template" in
  let Hregistered := fresh "Hregistered" in
  registered_statement name template Hregistered;
  match goal with
  | |- context [run (_sql_get name ?table_name) ?st] =>
      rewrite (run_sql_get name table_name _ st
                 (sql_get_registered name _ table_name Hregistered))
  end.

(** ** Reads with and without the transaction lock *)

(** X12. The streamed reads take no lock: while the transaction lock is
    held, [items] and [read_blob_chunks] still open their cursor on the
    session of the transaction.  Every other read of the transaction waits
    for the lock and sends nothing to the database. *)
Theorem streamed_reads_take_no_lock (oid id bid : string) (ids : list string)
    (chunk page page_size : Z) (st : state) :
  Transaction._lock (txn st) = true →
  (∃ sql,
     sql_get "GET_CHILDREN" (_objects_table_name (self st)) = Some sql
     ∧ run (items oid) st
       = (match conn_cursor (calls (history st))
                  (Transaction._db_conn (txn st)) sql [VStr oid] with
          | Ok records => Returned records
          | Err e => Raised e
          end,
          record_event
            (EvCursor (Transaction._db_conn (txn st)) sql [VStr oid]) st))
  ∧ run (read_blob_chunks bid) st
    = (match conn_cursor (calls (history st))
               (Transaction._db_conn (txn st)) bid [] with
       | Ok records => Returned records
       | Err e => Raised e
       end,
       record_event (EvCursor (Transaction._db_conn (txn st)) bid []) st)
  ∧ run (load oid) st = (Blocked, st)
  ∧ run (keys oid) st = (Blocked, st)
  ∧ run (get_child oid id) st = (Blocked, st)
  ∧ run (get_children oid ids) st = (Blocked, st)
  ∧ run (has_key oid id) st = (Blocked, st)
  ∧ run (get_annotation oid id) st = (Blocked, st)
  ∧ run (get_annotation_keys oid) st = (Blocked, st)
  ∧ run (read_blob_chunk bid chunk) st = (Blocked, st)
  ∧ run (_get_page_resources_of_type id page page_size) st = (Blocked, st).
Proof.
  intros Hheld. split; [|split; [apply read_blob_chunks_query|]].
  { registered_statement "GET_CHILDREN" template Hregistered.
    pose proof (sql_get_registered _ _ (_objects_table_name (self st))
                  Hregistered) as Hsql.
    eexists. split; [exact Hsql|]. now apply items_query. }
  revert Hheld. open_state st. intros ->.
  repeat match goal with |- _ ∧ _ => split end.
  - unfold load. run_steps. lookup_registered "GET_OID". now run_steps.
  - unfold keys. run_steps. lookup_registered "GET_CHILDREN_KEYS".
    now run_steps.
  - unfold get_child. run_steps. lookup_registered "GET_CHILD".
    now run_steps.
  - unfold get_children. run_steps. lookup_registered "GET_CHILDREN_BATCH".
    now run_steps.
  - unfold has_key. run_steps. lookup_registered "EXIST_CHILD".
    now run_steps.
  - unfold get_annotation. run_steps. lookup_registered "GET_ANNOTATION".
    now run_steps.
  - unfold get_annotation_keys. run_steps.
    lookup_registered "GET_ANNOTATIONS_KEYS". now run_steps.
  - unfold read_blob_chunk. run_steps. lookup_registered "READ_BLOB_CHUNK".
    now run_steps.
  - unfold _get_page_resources_of_type. now run_steps.
Qed.

(** ** Pages *)

Lemma append_ids_run (records : list row) (ids keys : list value)
    (st : state) :
  Forall2 (λ record id, row_get record "id" = Some id) records ids →
  run (append_ids keys records) st = (Returned (keys ++ ids), st).
Proof.
  intros Hids. revert keys.
  induction Hids as [|record id rest ids' Hid _ IH]; intros keys.
  - cbn [append_ids]. now rewrite app_nil_r.
  - cbn [append_ids]. unfold getitem. rewrite Hid. run_steps.
    rewrite IH. now rewrite <- app_assoc.
Qed.

Lemma append_ids_missing (before after : list row) (record : row)
    (ids keys : list value) (st : state) :
  Forall2 (λ record id, row_get record "id" = Some id) before ids →
  row_get record "id" = None →
  run (append_ids keys (before ++ record :: after)) st
  = (Raised (KeyError "id"), st).
Proof.
  intros Hids Hmissing. revert keys.
  induction Hids as [|record' id rest ids' Hid _ IH]; intros keys.
  - cbn [append_ids app]. unfold getitem. now rewrite Hmissing.
  - cbn [append_ids app]. unfold getitem. rewrite Hid. run_steps. apply IH.
Qed.

(** X13. [get_page_of_keys] fetches one page of BATCHED_GET_CHILDREN_KEYS:
    the page size is the limit and (page - 1) * page_size the offset, which
    is 0 for the default first page.  It returns the [id] column of the
    fetched rows in their order, raises KeyError when a row has no such
    column, and passes an error of the driver on.  The query runs on the
    session of the transaction without the transaction lock, whether the
    lock is held or not. *)
Theorem get_page_of_keys_reads_one_page (oid : string) (page page_size : Z)
    (st : state) :
  let conn := Transaction._db_conn (txn st) in
  let args := [VStr oid; VInt page_size; VInt ((page - 1) * page_size)] in
  ∃ sql,
    sql_get "BATCHED_GET_CHILDREN_KEYS" (_objects_table_name (self st))
    = Some sql
    ∧ (∀ records ids,
         conn_fetch (calls (history st)) conn sql args = Ok records →
         Forall2 (λ record id, row_get record "id" = Some id) records ids →
         run (get_page_of_keys oid page page_size) st
         = (Returned ids, record_event (EvFetch conn sql args) st))
    ∧ (∀ before record after ids,
         conn_fetch (calls (history st)) conn sql args
         = Ok (before ++ record :: after) →
         Forall2 (λ record id, row_get record "id" = Some id) before ids →
         row_get record "id" = None →
         run (get_page_of_keys oid page page_size) st
         = (Raised (KeyError "id"), record_event (EvFetch conn sql args) st))
    ∧ (∀ e,
         conn_fetch (calls (history st)) conn sql args = Err e →
         run (get_page_of_keys oid page page_size) st
         = (Raised e, record_event (EvFetch conn sql args) st))
    ∧ (page = default_page → args !! 2%nat = Some (VInt 0)).
Proof.
  cbv zeta.
  registered_statement "BATCHED_GET_CHILDREN_KEYS" template Hregistered.
  pose proof (sql_get_registered _ _ (_objects_table_name (self st))
                Hregistered) as Hsql.
  eexists. split; [exact Hsql|].
  assert (Hrun : ∀ answer,
    conn_fetch (calls (history st)) (Transaction._db_conn (txn st))
      (format_table_name template (_objects_table_name (self st)))
      [VStr oid; VInt page_size; VInt ((page - 1) * page_size)] = answer →
    run (get_page_of_keys oid page page_size) st
    = match answer with
      | Ok records =>
          run (append_ids [] records)
            (record_event
               (EvFetch (Transaction._db_conn (txn st))
                  (format_table_name template (_objects_table_name (self st)))
                  [VStr oid; VInt page_size; VInt ((page - 1) * page_size)])
               st)
      | Err e =>
          (Raised e,
           record_event
             (EvFetch (Transaction._db_conn (txn st))
                (format_table_name template (_objects_table_name (self st)))
                [VStr oid; VInt page_size; VInt ((page - 1) * page_size)])
             st)
      end).
  { intros answer Hfetch. unfold get_page_of_keys. run_steps.
    rewrite (run_sql_get _ _ _ _ Hsql). run_steps.
    rewrite Hfetch. now destruct answer. }
  split; [|split; [|split]].
  - intros records ids Hfetch Hids. rewrite (Hrun _ Hfetch).
    now rewrite (append_ids_run records ids).
  - intros before record after ids Hfetch Hids Hmissing.
    rewrite (Hrun _ Hfetch). now apply append_ids_missing with (ids := ids).
  - intros e Hfetch. now rewrite (Hrun _ Hfetch).
  - intros ->. reflexivity.
Qed.

Lemma appended_records (records keys : list row) :
  foldl (λ keys record, keys ++ [record]) keys records = keys ++ records.
Proof.
  revert keys. induction records as [|record rest IH]; intros keys;
    cbn [foldl]; [now rewrite app_nil_r|].
  rewrite IH. now rewrite <- app_assoc.
Qed.

(** X14. [_get_page_resources_of_type] fetches one page of
    RESOURCES_BY_TYPE under the transaction lock, with the page size as
    limit and (page - 1) * page_size as offset, and returns the fetched
    rows, all of them and in their order. *)
Theorem page_of_resources_is_the_fetched_page (type_ : string)
    (page page_size : Z) (st : state) :
  Transaction._lock (txn st) = false →
  let conn := Transaction._db_conn (txn st) in
  let args := [VStr type_; VInt page_size; VInt ((page - 1) * page_size)] in
  ∃ sql,
    sql_get "RESOURCES_BY_TYPE" (_objects_table_name (self st)) = Some sql
    ∧ run (_get_page_resources_of_type type_ page page_size) st
      = (match conn_fetch (calls (history st)) conn sql args with
         | Ok records => Returned records
         | Err e => Raised e
         end,
         {| self := self st; txn := txn st;
            history := history st
              ++ [EvLockAcquire TransactionLock; EvFetch conn sql args;
                  EvLockRelease TransactionLock] |}).
Proof.
  cbv zeta. intros Hfree.
  registered_statement "RESOURCES_BY_TYPE" template Hregistered.
  pose proof (sql_get_registered _ _ (_objects_table_name (self st))
                Hregistered) as Hsql.
  eexists. split; [exact Hsql|].
  revert Hfree Hsql. open_state st. intros -> Hsql.
  unfold _get_page_resources_of_type. run_steps.
  rewrite (run_sql_get _ _ _ _ Hsql). run_steps.
  seen_calls. destruct (conn_fetch _ _ _ _) as [records|e]; run_steps.
  - rewrite appended_records. same_state.
  - same_state.
Qed.

(** ** More of the write protocol of [store] *)

(** X15. When the database reports one row with count 1, [store] returns:
    it has made its one call under the transaction lock, logged no error,
    left the transaction as it was, and then, with the lock free again,
    notified the cache of the object and its pickle. *)
Theorem store_success_notifies_cache (st : state) (oid : string)
    (old_serial : option Z) (writer : Writer.t) (obj : Obj) (sql : string)
    (first : row) (count : value) :
  Transaction._lock (txn st) = false →
  sql_get (if negb (__new_marker__ obj) && bool_decide (_p_serial obj ≠ None)
           then "UPDATE" else "NAIVE_UPSERT")
          (_objects_table_name (self st)) = Some sql →
  conn_fetch (calls (history st)) (Transaction._db_conn (txn st)) sql
    (store_args oid (Transaction._tid (txn st)) old_serial writer)
  = Ok [first] →
  row_get first "count" = Some count →
  py_eq count (VInt 1) = true →
  run (store (Some oid) old_serial writer obj) st
  = (Returned tt,
     {| self := self st; txn := txn st;
        history := history st ++ large_record_log writer obj
          ++ [EvLockAcquire TransactionLock;
              EvFetch (Transaction._db_conn (txn st)) sql
                (store_args oid (Transaction._tid (txn st)) old_serial writer);
              EvLockRelease TransactionLock;
              EvCacheStoreObject obj (Writer.serialize writer)] |}).
Proof.
  open_state st. intros -> Hsql Hfetch Hcolumn Hone.
  unfold store, large_record_log.
  destruct (negb _ && _) eqn:Hupdate; run_steps.
  1: lookup_sql registered_NAIVE_UPSERT; run_steps.
  all: rewrite (run_sql_get _ _ _ _ Hsql); run_steps.
  all: seen_calls; rewrite Hfetch; run_steps.
  all: unfold count_is_not_one, getitem; rewrite Hcolumn; run_steps.
  all: rewrite Hone; run_steps; same_state.
Qed.

(** X16. The errors of the write statement that [store] turns into
    ConflictError: an InterfaceError whose message contains "another
    operation is in progress", and a detected deadlock.  Any other
    InterfaceError, and every error [store] has no handler for, is raised
    as it came.  In all these cases the transaction lock is free again, the
    transaction is as it was and the cache is not notified. *)
Theorem store_raises_conflict_error (st : state) (oid : string)
    (old_serial : option Z) (writer : Writer.t) (obj : Obj) (sql : string)
    (e : exn) :
  Transaction._lock (txn st) = false →
  sql_get (if negb (__new_marker__ obj) && bool_decide (_p_serial obj ≠ None)
           then "UPDATE" else "NAIVE_UPSERT")
          (_objects_table_name (self st)) = Some sql →
  conn_fetch (calls (history st)) (Transaction._db_conn (txn st)) sql
    (store_args oid (Transaction._tid (txn st)) old_serial writer)
  = Err e →
  (∀ detail, e ≠ UniqueViolationError detail) →
  e ≠ ForeignKeyViolationError →
  run (store (Some oid) old_serial writer obj) st
  = (Raised
       match e with
       | InterfaceError msg =>
           if contains "another operation is in progress" msg
           then ConflictError "asyncpg error, another operation in progress."
                  (Some (oid, old_serial, writer))
           else e
       | DeadlockDetectedError =>
           ConflictError "Deadlock detected." (Some (oid, old_serial, writer))
       | _ => e
       end,
     {| self := self st; txn := txn st;
        history := history st ++ large_record_log writer obj
          ++ [EvLockAcquire TransactionLock;
              EvFetch (Transaction._db_conn (txn st)) sql
                (store_args oid (Transaction._tid (txn st)) old_serial writer);
              EvLockRelease TransactionLock] |}).
Proof.
  open_state st. intros -> Hsql Hfetch Hunique Hforeign.
  unfold store, large_record_log.
  destruct (negb _ && _) eqn:Hupdate; run_steps.
  1: lookup_sql registered_NAIVE_UPSERT; run_steps.
  all: rewrite (run_sql_get _ _ _ _ Hsql); run_steps.
  all: seen_calls; rewrite Hfetch.
  all: destruct e;
    try (exfalso; exact (Hunique _ eq_refl));
    try (exfalso; exact (Hforeign eq_refl)).
  all: run_steps; try (destruct (contains _ _); run_steps); same_state.
Qed.

Lemma cache_notifications_app (h more : list event) :
  cache_notifications (h ++ more)
  = cache_notifications h ++ cache_notifications more.
Proof. apply omap_app. Qed.

(** X17. [store] notifies the cache exactly when it returns: whatever the
    arguments, the state of the locks and the answer of the database, a run
    of [store] that returns has added one notification, of the object and
    its pickle, and a run that raises or waits has added none. *)
Theorem store_notifies_cache_iff_it_returns (st : state) (oid : option string)
    (old_serial : option Z) (writer : Writer.t) (obj : Obj) :
  cache_notifications
    (history (run (store oid old_serial writer obj) st).2)
  = cache_notifications (history st)
    ++ match (run (store oid old_serial writer obj) st).1 with
       | Returned _ => [(obj, Writer.serialize writer)]
       | _ => []
       end.
Proof.
  destruct oid as [oid|]; [|cbn; now rewrite app_nil_r].
  open_state st. unfold store.
  destruct (_large_record_size <=? _)%Z.
  all: destruct (negb _ && _) eqn:Hupdate; run_steps.
  all: lookup_sql registered_NAIVE_UPSERT; run_steps.
  all: try (lookup_sql registered_UPDATE; run_steps).
  all: match goal with
       | |- context [if ?held then _ else _] => destruct held
       end; run_steps.
  all: try (destruct (conn_fetch _ _ _ _) as [result|e]; run_steps).
  all: try (unfold count_is_not_one; destruct result as [|first [|]];
            run_steps; [|unfold getitem; destruct (row_get _ _); run_steps;
                         [destruct (py_eq _ _); run_steps|]|]).
  all: try (destruct e; run_steps; try (destruct (contains _ _); run_steps)).
  all: cbn [fst snd]; state_fields.
  all: rewrite ?cache_notifications_app; cbn [cache_notifications omap];
    rewrite ?app_nil_r; rewrite <- ?app_assoc; reflexivity.
Qed.

(** ** A restart that fails *)

(** X18. [restart_connection] forgives [pool.close] a timeout and nothing
    else: any other error of the close is raised at once, before the pool
    is terminated.  When the pool was terminated and [create_pool] fails,
    that error is raised and the storage still holds the old, terminated
    pool; the time of initialization is not stamped. *)
Theorem restart_connection_keeps_old_pool_on_failure (fuel : nat)
    (timeout : float) (st : state) (old : Pool) :
  _pool (self st) = Some old →
  let args := {| dsn := _dsn (self st); max_size := _pool_size (self st);
                 min_size := 2; loop := _loop old;
                 connection_class := pg_connection_class;
                 kw := _connection_options (self st) |} in
  let seen := calls (history st) in
  (∀ e,
     pool_close seen old timeout = Err e →
     e ≠ TimeoutError →
     run (restart_connection fuel timeout) st
     = (Raised e,
        {| self := self st; txn := txn st;
           history := history st
             ++ [EvLog ERROR "Connection potentially lost to pg, restarting";
                 EvPoolClose old timeout] |}))
  ∧ (∀ e,
       pool_close seen old timeout = Ok tt
       ∨ pool_close seen old timeout = Err TimeoutError →
       create_pool (seen ++ [EvPoolClose old timeout; EvPoolTerminate old])
         args
       = Err e →
       run (restart_connection fuel timeout) st
       = (Raised e,
          {| self := self st; txn := txn st;
             history := history st
               ++ [EvLog ERROR "Connection potentially lost to pg, restarting";
                   EvPoolClose old timeout; EvPoolTerminate old;
                   EvCreatePool args] |})).
Proof.
  cbv zeta. open_state st. intros ->. split.
  - intros e Hclose Hother.
    unfold restart_connection, restart_connection_with, get_pool. run_steps.
    seen_calls. rewrite Hclose. run_steps.
    destruct e; try same_state. now destruct Hother.
  - intros e Hclose Hcreate.
    unfold restart_connection, restart_connection_with, get_pool. run_steps.
    seen_calls. destruct Hclose as [Hclose|Hclose]; rewrite Hclose; run_steps.
    all: seen_calls; rewrite Hcreate; run_steps; same_state.
Qed.

(** ** Reads that pass the answer of the driver on *)

(** X19. [get_annotation] prepares GET_ANNOTATION on the session of the
    transaction and fetches the row of (oid, id) from the prepared
    statement, under the transaction lock.  A row whose [parent_id] is not
    TRASHED_ID is returned as it was fetched, and no row gives None. *)
Theorem get_annotation_returns_live_rows (st : state) (oid id : string)
    (stmt : PreparedStatement) (result : option row) :
  Transaction._lock (txn st) = false →
  let conn := Transaction._db_conn (txn st) in
  ∃ sql,
    sql_get "GET_ANNOTATION" (_objects_table_name (self st)) = Some sql
    ∧ (conn_prepare (calls (history st)) conn sql = Ok stmt →
       stmt_fetchrow (calls (history st) ++ [EvPrepare conn sql]) stmt
         [VStr oid; VStr id]
       = Ok result →
       (∀ record, result = Some record →
          ∃ parent, row_get record "parent_id" = Some parent
                    ∧ parent ≠ VStr TRASHED_ID) →
       run (get_annotation oid id) st
       = (Returned result,
          {| self := self st; txn := txn st;
             history := history st
               ++ [EvLockAcquire TransactionLock; EvPrepare conn sql;
                   EvStmtFetchrow stmt [VStr oid; VStr id];
                   EvLockRelease TransactionLock] |})).
Proof.
  cbv zeta. intros Hfree.
  registered_statement "GET_ANNOTATION" template Hregistered.
  pose proof (sql_get_registered _ _ (_objects_table_name (self st))
                Hregistered) as Hsql.
  eexists. split; [exact Hsql|].
  revert Hfree Hsql. open_state st. intros -> Hsql Hprepare Hrow Hlive.
  unfold get_annotation, get_one_row. run_steps.
  rewrite (run_sql_get _ _ _ _ Hsql). run_steps.
  seen_calls. rewrite Hprepare. run_steps.
  seen_calls. rewrite Hrow. run_steps.
  destruct result as [record|]; run_steps; [|same_state].
  destruct (Hlive record eq_refl) as (parent & Hparent & Hne).
  unfold getitem. rewrite Hparent. run_steps.
  destruct (py_eq parent (VStr TRASHED_ID)) eqn:Heq.
  - apply py_eq_str in Heq. now destruct Hne.
  - run_steps. same_state.
Qed.

Lemma locked_fetch (st : state) (sql : string) (args : list value) :
  Transaction._lock (txn st) = false →
  run (async_with TransactionLock
         (call (EvFetch (Transaction._db_conn (txn st)) sql args)
               (λ h, conn_fetch h (Transaction._db_conn (txn st)) sql args)))
      st
  = (match conn_fetch (calls (history st)) (Transaction._db_conn (txn st))
             sql args with
     | Ok records => Returned records
     | Err e => Raised e
     end,
     {| self := self st; txn := txn st;
        history := history st
          ++ [EvLockAcquire TransactionLock;
              EvFetch (Transaction._db_conn (txn st)) sql args;
              EvLockRelease TransactionLock] |}).
Proof.
  open_state st. intros ->. run_steps.
  seen_calls. destruct (conn_fetch _ _ _ _); same_state.
Qed.

Lemma locked_fetchrow (st : state) (sql : string) (args : list value) :
  Transaction._lock (txn st) = false →
  run (async_with TransactionLock (get_one_row sql args false)) st
  = (match conn_fetchrow (calls (history st)) (Transaction._db_conn (txn st))
             sql args with
     | Ok record => Returned record
     | Err e => Raised e
     end,
     {| self := self st; txn := txn st;
        history := history st
          ++ [EvLockAcquire TransactionLock;
              EvFetchrow (Transaction._db_conn (txn st)) sql args;
              EvLockRelease TransactionLock] |}).
Proof.
  open_state st. intros ->. unfold get_one_row. run_steps.
  seen_calls. destruct (conn_fetchrow _ _ _ _); same_state.
Qed.

(** X20. The reads of children and of one blob chunk make one call on the
    session of the transaction, under the transaction lock, and return what
    the driver answers or raise what it raises: [keys] fetches
    GET_CHILDREN_KEYS for the oid, [get_child] the GET_CHILD row of
    (parent, id), [get_children] fetches GET_CHILDREN_BATCH with the ids as
    one array parameter, all three on the objects table; [read_blob_chunk]
    fetches the READ_BLOB_CHUNK row of (bid, chunk) on the blobs table. *)
Theorem reads_return_the_answer_of_the_driver (st : state) (oid id bid : string)
    (ids : list string) (chunk : Z) :
  Transaction._lock (txn st) = false →
  let conn := Transaction._db_conn (txn st) in
  let answered {A} (answer : result A) (ev : event) : outcome A * state :=
    (match answer with
     | Ok a => Returned a
     | Err e => Raised e
     end,
     {| self := self st; txn := txn st;
        history := history st
          ++ [EvLockAcquire TransactionLock; ev;
              EvLockRelease TransactionLock] |}) in
  (∃ sql,
     sql_get "GET_CHILDREN_KEYS" (_objects_table_name (self st)) = Some sql
     ∧ run (keys oid) st
       = answered (conn_fetch (calls (history st)) conn sql [VStr oid])
           (EvFetch conn sql [VStr oid]))
  ∧ (∃ sql,
       sql_get "GET_CHILD" (_objects_table_name (self st)) = Some sql
       ∧ run (get_child oid id) st
         = answered
             (conn_fetchrow (calls (history st)) conn sql [VStr oid; VStr id])
             (EvFetchrow conn sql [VStr oid; VStr id]))
  ∧ (∃ sql,
       sql_get "GET_CHILDREN_BATCH" (_objects_table_name (self st)) = Some sql
       ∧ run (get_children oid ids) st
         = answered
             (conn_fetch (calls (history st)) conn sql
                [VStr oid; VStrList ids])
             (EvFetch conn sql [VStr oid; VStrList ids]))
  ∧ (∃ sql,
       sql_get "READ_BLOB_CHUNK" (_blobs_table_name (self st)) = Some sql
       ∧ run (read_blob_chunk bid chunk) st
         = answered
             (conn_fetchrow (calls (history st)) conn sql
                [VStr bid; VInt chunk])
             (EvFetchrow conn sql [VStr bid; VInt chunk])).
Proof.
  cbv zeta. intros Hfree.
  repeat match goal with |- _ ∧ _ => split end.
  - registered_statement "GET_CHILDREN_KEYS" template Hregistered.
    pose proof (sql_get_registered _ _ (_objects_table_name (self st))
                  Hregistered) as Hsql.
    eexists. split; [exact Hsql|].
    unfold keys. rewrite run_bind, run_get_connection, run_bind, run_get_state,
      run_bind, (run_sql_get _ _ _ _ Hsql).
    now apply locked_fetch.
  - registered_statement "GET_CHILD" template Hregistered.
    pose proof (sql_get_registered _ _ (_objects_table_name (self st))
                  Hregistered) as Hsql.
    eexists. split; [exact Hsql|].
    unfold get_child. rewrite run_bind, run_get_state,
      run_bind, (run_sql_get _ _ _ _ Hsql).
    now apply locked_fetchrow.
  - registered_statement "GET_CHILDREN_BATCH" template Hregistered.
    pose proof (sql_get_registered _ _ (_objects_table_name (self st))
                  Hregistered) as Hsql.
    eexists. split; [exact Hsql|].
    unfold get_children. rewrite run_bind, run_get_connection, run_bind,
      run_get_state, run_bind, (run_sql_get _ _ _ _ Hsql).
    now apply locked_fetch.
  - registered_statement "READ_BLOB_CHUNK" template Hregistered.
    pose proof (sql_get_registered _ _ (_blobs_table_name (self st))
                  Hregistered) as Hsql.
    eexists. split; [exact Hsql|].
    unfold read_blob_chunk. rewrite run_bind, run_get_state,
      run_bind, (run_sql_get _ _ _ _ Hsql).
    now apply locked_fetchrow.
Qed.

End Properties.

(** * The theorems at the sample data *)

#[local] Existing Instance sample_constants.

Lemma get_conflicts_nothing_modified_witness :
  run (get_conflicts (pg := backend_counting 1)) (sample_state ∅)
  = (Returned [],
     {| self := sample_storage; txn := sample_txn ∅;
        history := [EvLockAcquire StorageLock; EvLockRelease StorageLock] |}).
Proof.
  apply (get_conflicts_nothing_modified (pg := backend_counting 1)
           (sample_state ∅)); reflexivity.
Defined.

Lemma store_checks_row_count_witness :
  (run (store (pg := backend_counting 0) (Some "A") (Some 4) sample_writer
          stored_object) (sample_state ∅)).1
  = Raised (TIDConflictError
      "Mismatch of tid of object being updated. This is likely caused by a cache invalidation race condition and should be an edge case. This should resolve on request retry."
      "A" (Some 4) sample_writer)
  ∧ (run (store (pg := backend_counting 0) (Some "A") None sample_writer
            new_object) (sample_state ∅)).1
    = Returned tt.
Proof.
  assert (Hcount : reports_other_than_one [count_row 0]).
  { right. exists (count_row 0), (VInt 0). repeat split. }
  split.
  - rewrite (proj1 (store_checks_row_count (pg := backend_counting 0)
               (sample_state ∅) "A" (Some 4) sample_writer stored_object
               (format_table_name
                  (_wrap_return_count (NAIVE_UPDATE +:+ " AND tid = $7::int"))
                  "objects")
               [count_row 0] eq_refl eq_refl Hcount)).
    + reflexivity.
    + reflexivity.
    + discriminate.
    + vm_compute. reflexivity.
  - rewrite (proj2 (store_checks_row_count (pg := backend_counting 0)
               (sample_state ∅) "A" None sample_writer new_object
               (format_table_name (_wrap_return_count NAIVE_UPSERT) "objects")
               [count_row 0] eq_refl eq_refl Hcount)).
    + reflexivity.
    + now right.
    + vm_compute. reflexivity.
Defined.


Lemma store_translates_errors_witness :
  (run (store (pg := backend_refusing (UniqueViolationError
                 "Key (parent_id, id)=(P, a) already exists."))
          (Some "A") None sample_writer new_object) (sample_state ∅)).1
  = Raised (ConflictIdOnContainer (UniqueViolationError
              "Key (parent_id, id)=(P, a) already exists."))
  ∧ (run (store (pg := backend_refusing (UniqueViolationError
                   "Key (zoid)=(A) already exists."))
            (Some "A") None sample_writer new_object) (sample_state ∅)).1
    = Raised (UniqueViolationError "Key (zoid)=(A) already exists.")
  ∧ Transaction.deleted
      (txn (run (store (pg := backend_refusing ForeignKeyViolationError)
                   (Some "A") None sample_writer new_object)
              (sample_state ∅)).2) !! "A"
    = Some new_object.
Proof.
  assert (Hsql : sql_get "NAIVE_UPSERT" "objects"
                 = Some (format_table_name (_wrap_return_count NAIVE_UPSERT)
                           "objects")).
  { vm_compute. reflexivity. }
  split; [|split].
  - exact (store_translates_errors
             (pg := backend_refusing (UniqueViolationError
                      "Key (parent_id, id)=(P, a) already exists."))
             (sample_state ∅) "A" None sample_writer new_object _
             (UniqueViolationError "Key (parent_id, id)=(P, a) already exists.")
             eq_refl Hsql eq_refl).
  - exact (store_translates_errors
             (pg := backend_refusing (UniqueViolationError
                      "Key (zoid)=(A) already exists."))
             (sample_state ∅) "A" None sample_writer new_object _
             (UniqueViolationError "Key (zoid)=(A) already exists.")
             eq_refl Hsql eq_refl).
  - exact (proj2 (store_translates_errors
                    (pg := backend_refusing ForeignKeyViolationError)
                    (sample_state ∅) "A" None sample_writer new_object _
                    ForeignKeyViolationError eq_refl Hsql eq_refl)).
Defined.

Lemma get_conflicts_chooses_query_witness :
  ∃ sql args,
    run (get_conflicts (pg := backend_counting 1))
        (sample_state {["A" := stored_object]})
    = (Returned [count_row 1],
       {| self := sample_storage;
          txn := sample_txn {["A" := stored_object]};
          history := [EvLockAcquire StorageLock;
                      EvFetch {| conn_id := 0 |} sql args;
                      EvLockRelease StorageLock] |})
    ∧ sql_get "TXN_CONFLICTS_ON_OIDS" "objects" = Some sql
    ∧ ∃ oids, args = [VInt 5; VStrList oids] ∧ ∀ oid, oid ∈ oids ↔ oid = "A".
Proof.
  assert (Hmodified : ({["A" := stored_object]} : gmap string Obj) ≠ ∅)
    by apply map_non_empty_singleton.
  destruct (get_conflicts_chooses_query (pg := backend_counting 1)
              (sample_state {["A" := stored_object]}) {| conn_id := 0 |}
              eq_refl Hmodified eq_refl)
    as (sql & args & Hrun & Hquery & _).
  exists sql, args.
  rewrite bool_decide_eq_true_2 in Hquery
    by (cbn; rewrite map_size_singleton; lia).
  destruct Hquery as (Hsql & oids & Hargs & _ & Hoids).
  split; [exact Hrun|]. split; [exact Hsql|].
  exists oids. split; [exact Hargs|].
  intros oid. rewrite Hoids. cbn. rewrite lookup_singleton_is_Some.
  split; congruence.
Defined.

Lemma bad_connection_recovery_witness :
  run (_check_bad_connection (pg := backend_without_sessions 101%float "")
         1 (InterfaceError "the server closed the connection unexpectedly"))
      (sample_state ∅)
  = (Returned tt, sample_state ∅)
  ∧ run (_check_bad_connection
           (pg := backend_without_sessions 100.25%float "") 1
           (InterfaceError "connection is closed"))
        (sample_state ∅)
    = (Returned tt, record_event EvTime (sample_state ∅))
  ∧ (run (_check_bad_connection (pg := backend_counting 1) 1
            (InterfaceError "connection is closed"))
         (sample_state ∅)).1
    = Raised (ConflictError "Restarting connection to postgresql" None).
Proof.
  split; [|split].
  - apply (proj1 (proj2 (proj2
      (bad_connection_recovery (pg := backend_without_sessions 101%float "")
         1 "the server closed the connection unexpectedly" (sample_state ∅))))).
    reflexivity.
  - apply (proj1 (proj2 (proj2 (proj2
      (bad_connection_recovery (pg := backend_without_sessions 100.25%float "")
         1 "connection is closed" (sample_state ∅)))))); reflexivity.
  - pose proof (bad_connection_recovery (pg := backend_counting 1)
                  1 "connection is closed" (sample_state ∅))
      as (_ & _ & _ & _ & Hrestart & _ & _).
    rewrite Hrestart by reflexivity.
    pose proof (bad_connection_recovery (pg := backend_counting 1)
                  0 "connection is closed"
                  (record_event EvTime (sample_state ∅)))
      as (_ & _ & _ & _ & _ & _ & Hrecovers).
    rewrite (Hrecovers default_restart_timeout sample_pool
               {| pool_id := 2; _loop := Some 0%nat |} {| conn_id := 9 |}
               {| stmt_conn := {| conn_id := 9 |}; stmt_query := NEXT_TID |}
               {| stmt_conn := {| conn_id := 9 |}; stmt_query := MAX_TID |}
               eq_refl (or_introl eq_refl) eq_refl eq_refl eq_refl eq_refl).
    reflexivity.
Defined.


Lemma annotation_reads_filter_trash_witness :
  (run (get_annotation (pg := backend_with_annotations) "A"
          "guillotina.behaviors.dublincore.IDublinCore") (sample_state ∅)).1
  = Returned None
  ∧ (run (get_annotation_keys (pg := backend_with_annotations) "A")
         (sample_state ∅)).1
    = Returned [live_annotation].
Proof.
  pose proof (annotation_reads_filter_trash (pg := backend_with_annotations)
                (sample_state ∅) "A" eq_refl) as [Hone Hkeys].
  split.
  - destruct (sql_get "GET_ANNOTATION" "objects") as [sql|] eqn:Hsql;
      [|vm_compute in Hsql; discriminate Hsql].
    exact (Hone "guillotina.behaviors.dublincore.IDublinCore" sql
             {| stmt_conn := {| conn_id := 3 |}; stmt_query := sql |}
             trashed_annotation Hsql eq_refl eq_refl eq_refl).
  - destruct (sql_get "GET_ANNOTATIONS_KEYS" "objects") as [sql|] eqn:Hsql;
      [|vm_compute in Hsql; discriminate Hsql].
    refine (proj1 (Hkeys sql [live_annotation; trashed_annotation] Hsql
                     eq_refl _)).
    repeat constructor; now eexists.
Defined.

(** C5. [restart_connection] does not always raise ConflictError: when the
    pool cannot be recreated, the error of [create_pool] is what the caller
    gets. *)
Lemma restart_connection_raises_other_error :
  (run (restart_connection (pg := backend_without_pools (OtherError "OSError"))
          1 default_restart_timeout) (sample_state ∅)).1
  = Raised (OtherError "OSError")
  ∧ ∀ msg context,
      (run (restart_connection
              (pg := backend_without_pools (OtherError "OSError"))
              1 default_restart_timeout) (sample_state ∅)).1
      ≠ Raised (ConflictError msg context).
Proof.
  assert (Hrun :
    (run (restart_connection
            (pg := backend_without_pools (OtherError "OSError"))
            1 default_restart_timeout) (sample_state ∅)).1
    = Raised (OtherError "OSError")) by reflexivity.
  split; [exact Hrun|]. intros msg context. rewrite Hrun. discriminate.
Qed.


Lemma load_missing_object_is_key_error_witness :
  (run (load (pg := backend_counting 1) "A") (sample_state ∅)).1
  = Raised (KeyError "A")
  ∧ (run (load (pg := backend_with_children) "B") (sample_state ∅)).1
    = Returned [("zoid", VStr "B")].
Proof.
  split.
  - destruct (load_missing_object_is_key_error (pg := backend_counting 1)
                "A" (sample_state ∅) eq_refl) as (sql & _ & Hrun).
    rewrite Hrun. reflexivity.
  - destruct (load_missing_object_is_key_error (pg := backend_with_children)
                "B" (sample_state ∅) eq_refl) as (sql & _ & Hrun).
    rewrite Hrun. reflexivity.
Defined.

Lemma has_key_reports_presence_witness :
  (run (has_key (pg := backend_counting 1) "P" "a") (sample_state ∅)).1
  = Returned false
  ∧ (run (has_key (pg := backend_with_children) "P" "a") (sample_state ∅)).1
    = Returned true.
Proof.
  split.
  - destruct (has_key_reports_presence (pg := backend_counting 1)
                "P" "a" (sample_state ∅) eq_refl) as (sql & _ & Hrun).
    rewrite Hrun. reflexivity.
  - destruct (has_key_reports_presence (pg := backend_with_children)
                "P" "a" (sample_state ∅) eq_refl) as (sql & _ & Hrun).
    rewrite Hrun. reflexivity.
Defined.

Lemma get_current_tid_never_restarts_witness :
  (run (get_current_tid (pg := backend_counting 1)) (sample_state ∅)).1
  = Returned (VInt 7)
  ∧ run (get_current_tid
           (pg := backend_with_broken_statements 101%float
                    "connection is closed"))
        (sample_state ∅)
    = (Raised (InterfaceError "connection is closed"),
       {| self := sample_storage; txn := sample_txn ∅;
          history := [EvLockAcquire StorageLock;
                      EvStmtFetchval
                        {| stmt_conn := {| conn_id := 0 |};
                           stmt_query := MAX_TID |};
                      EvLockRelease StorageLock] |}).
Proof.
  split.
  - rewrite (proj1 (get_current_tid_never_restarts (pg := backend_counting 1)
                      (sample_state ∅) _ eq_refl eq_refl)).
    reflexivity.
  - exact (proj1 (get_current_tid_never_restarts
                    (pg := backend_with_broken_statements 101%float
                             "connection is closed")
                    (sample_state ∅) _ eq_refl eq_refl)).
Defined.

Lemma get_next_tid_reraises_witness :
  (run (get_next_tid (pg := backend_counting 1) 1) (sample_state ∅)).1
  = Returned (VInt 7)
  ∧ (run (get_next_tid
            (pg := backend_with_broken_statements 100.125%float
                     "connection is closed") 1)
         (sample_state ∅)).1
    = Raised (InterfaceError "connection is closed").
Proof.
  split.
  - rewrite (proj1 (get_next_tid_reraises (pg := backend_counting 1) 1
                      (sample_state ∅) _ eq_refl eq_refl) (VInt 7) eq_refl).
    reflexivity.
  - rewrite (proj1 (proj2 (get_next_tid_reraises
               (pg := backend_with_broken_statements 100.125%float
                        "connection is closed") 1
               (sample_state ∅) _ eq_refl eq_refl))
               "connection is closed" eq_refl).
    + reflexivity.
    + right. reflexivity.
Defined.

Lemma get_next_tid_restarts_connection_witness :
  (run (get_next_tid
          (pg := backend_with_broken_statements 101%float "connection is closed")
          1)
       (sample_state ∅)).1
  = Raised (ConflictError "Restarting connection to postgresql" None).
Proof.
  exact (proj1 (get_next_tid_restarts_connection
                  (pg := backend_with_broken_statements 101%float
                           "connection is closed")
                  0 (sample_state ∅)
                  {| stmt_conn := {| conn_id := 0 |}; stmt_query := NEXT_TID |}
                  "connection is closed" sample_pool
                  {| pool_id := 2; _loop := Some 0%nat |} {| conn_id := 9 |}
                  {| stmt_conn := {| conn_id := 9 |}; stmt_query := NEXT_TID |}
                  {| stmt_conn := {| conn_id := 9 |}; stmt_query := MAX_TID |}
                  eq_refl eq_refl eq_refl eq_refl eq_refl eq_refl
                  (or_introl eq_refl) eq_refl eq_refl eq_refl eq_refl)).
Defined.

Lemma open_hands_out_a_session_witness :
  run (open (pg := backend_counting 1) 1) (sample_state ∅)
  = (Returned (Some {| conn_id := 9 |}),
     record_event (EvPoolAcquire sample_pool 20) (sample_state ∅)).
Proof.
  exact (proj1 (open_hands_out_a_session (pg := backend_counting 1) 0
                  (sample_state ∅) sample_pool eq_refl)
           {| conn_id := 9 |} eq_refl).
Defined.

Lemma tid_methods_use_the_prepared_statements_witness :
  ∃ st1,
    run (initialize_tid_statements (pg := backend_counting 1)) (sample_state ∅)
    = (Returned tt, st1)
    ∧ (run (get_next_tid (pg := backend_counting 1) 1) st1).1
      = Returned (VInt 7)
    ∧ (run (get_current_tid (pg := backend_counting 1)) st1).1
      = Returned (VInt 7).
Proof.
  destruct (tid_methods_use_the_prepared_statements (pg := backend_counting 1)
              1 (sample_state ∅) {| conn_id := 0 |}
              {| stmt_conn := {| conn_id := 0 |}; stmt_query := NEXT_TID |}
              {| stmt_conn := {| conn_id := 0 |}; stmt_query := MAX_TID |}
              eq_refl eq_refl eq_refl eq_refl)
    as (st1 & Hrun & _ & Hnext & Hcurrent).
  exists st1. split; [exact Hrun|]. split.
  - exact (proj1 (Hnext (VInt 7) eq_refl)).
  - exact (proj1 (Hcurrent (VInt 7) eq_refl)).
Defined.

Lemma open_waits_for_its_own_lock_witness :
  (run (open (pg := backend_without_sessions 101%float "pool is closed") 2)
       (sample_state ∅)).1
  = Blocked
  ∧ _lock (self (run (open (pg := backend_without_sessions 101%float
                                     "pool is closed") 2)
                   (sample_state ∅)).2)
    = true.
Proof.
  pose proof (open_waits_for_its_own_lock
                (pg := backend_without_sessions 101%float "pool is closed")
                0 (sample_state ∅) sample_pool
                {| pool_id := 2; _loop := Some 0%nat |}
                "pool is closed" "pool is closed"
                eq_refl eq_refl eq_refl eq_refl eq_refl
                (or_introl eq_refl) eq_refl eq_refl)
    as (Hblocked & Hlock & _).
  split; [exact Hblocked|exact Hlock].
Defined.

Lemma streamed_reads_take_no_lock_witness :
  (run (items (pg := backend_with_children) "P")
       state_with_transaction_lock_held).1
  = Returned child_rows
  ∧ run (keys (pg := backend_with_children) "P")
        state_with_transaction_lock_held
    = (Blocked, state_with_transaction_lock_held).
Proof.
  destruct (streamed_reads_take_no_lock (pg := backend_with_children)
              "P" "a" "b1" ["a"] 0 1 1000 state_with_transaction_lock_held
              eq_refl)
    as ((sql & _ & Hitems) & _ & _ & Hkeys & _).
  split; [|exact Hkeys]. rewrite Hitems. reflexivity.
Defined.

Lemma page_of_resources_is_the_fetched_page_witness :
  (run (_get_page_resources_of_type (pg := backend_with_children) "Item" 2 10)
       (sample_state ∅)).1
  = Returned child_rows
  ∧ ∃ sql,
      calls (history
               (run (_get_page_resources_of_type (pg := backend_with_children)
                       "Item" 2 10)
                  (sample_state ∅)).2)
      = [EvFetch {| conn_id := 3 |} sql [VStr "Item"; VInt 10; VInt 10]].
Proof.
  destruct (page_of_resources_is_the_fetched_page (pg := backend_with_children)
              "Item" 2 10 (sample_state ∅) eq_refl) as (sql & _ & Hrun).
  rewrite Hrun. split; [reflexivity|]. exists sql. reflexivity.
Defined.

Lemma store_success_notifies_cache_witness :
  run (store (pg := backend_counting 1) (Some "A") (Some 4) sample_writer
         stored_object) (sample_state ∅)
  = (Returned tt,
     {| self := sample_storage; txn := sample_txn ∅;
        history :=
          [EvLockAcquire TransactionLock;
           EvFetch {| conn_id := 3 |}
             (format_table_name
                (_wrap_return_count (NAIVE_UPDATE +:+ " AND tid = $7::int"))
                "objects")
             (store_args "A" 5 (Some 4) sample_writer);
           EvLockRelease TransactionLock;
           EvCacheStoreObject stored_object [Byte.x00]] |}).
Proof.
  assert (Hsql : sql_get "UPDATE" "objects"
                 = Some (format_table_name
                           (_wrap_return_count
                              (NAIVE_UPDATE +:+ " AND tid = $7::int"))
                           "objects")).
  { vm_compute. reflexivity. }
  rewrite (store_success_notifies_cache (pg := backend_counting 1)
             (sample_state ∅) "A" (Some 4) sample_writer stored_object _
             (count_row 1) (VInt 1) eq_refl Hsql eq_refl eq_refl eq_refl).
  reflexivity.
Defined.

Lemma store_raises_conflict_error_witness :
  (run (store (pg := backend_refusing (InterfaceError
                 "cannot perform operation: another operation is in progress"))
          (Some "A") None sample_writer new_object) (sample_state ∅)).1
  = Raised (ConflictError "asyncpg error, another operation in progress."
              (Some ("A", None, sample_writer)))
  ∧ (run (store (pg := backend_refusing DeadlockDetectedError)
            (Some "A") None sample_writer new_object) (sample_state ∅)).1
    = Raised (ConflictError "Deadlock detected."
                (Some ("A", None, sample_writer)))
  ∧ (run (store (pg := backend_refusing (InterfaceError "connection is closed"))
            (Some "A") None sample_writer new_object) (sample_state ∅)).1
    = Raised (InterfaceError "connection is closed").
Proof.
  assert (Hsql : sql_get "NAIVE_UPSERT" "objects"
                 = Some (format_table_name (_wrap_return_count NAIVE_UPSERT)
                           "objects")).
  { vm_compute. reflexivity. }
  split; [|split].
  - rewrite (store_raises_conflict_error
               (pg := backend_refusing (InterfaceError
                  "cannot perform operation: another operation is in progress"))
               (sample_state ∅) "A" None sample_writer new_object _
               (InterfaceError
                  "cannot perform operation: another operation is in progress")
               eq_refl Hsql eq_refl).
    + reflexivity.
    + discriminate.
    + discriminate.
  - rewrite (store_raises_conflict_error
               (pg := backend_refusing DeadlockDetectedError)
               (sample_state ∅) "A" None sample_writer new_object _
               DeadlockDetectedError eq_refl Hsql eq_refl).
    + reflexivity.
    + discriminate.
    + discriminate.
  - rewrite (store_raises_conflict_error
               (pg := backend_refusing (InterfaceError "connection is closed"))
               (sample_state ∅) "A" None sample_writer new_object _
               (InterfaceError "connection is closed") eq_refl Hsql eq_refl).
    + reflexivity.
    + discriminate.
    + discriminate.
Defined.

Lemma restart_connection_keeps_old_pool_on_failure_witness :
  (run (restart_connection (pg := backend_without_pools (OtherError "OSError"))
          1 default_restart_timeout) (sample_state ∅)).1
  = Raised (OtherError "OSError")
  ∧ _pool (self (run (restart_connection
                        (pg := backend_without_pools (OtherError "OSError"))
                        1 default_restart_timeout) (sample_state ∅)).2)
    = Some sample_pool.
Proof.
  rewrite (proj2 (restart_connection_keeps_old_pool_on_failure
                    (pg := backend_without_pools (OtherError "OSError"))
                    1 default_restart_timeout (sample_state ∅) sample_pool
                    eq_refl)
             (OtherError "OSError") (or_intror eq_refl) eq_refl).
  split; reflexivity.
Defined.

Lemma get_annotation_returns_live_rows_witness :
  (run (get_annotation (pg := backend_with_live_annotation) "A" "default")
       (sample_state ∅)).1
  = Returned (Some live_annotation).
Proof.
  destruct (get_annotation_returns_live_rows
              (pg := backend_with_live_annotation) (sample_state ∅)
              "A" "default"
              {| stmt_conn := {| conn_id := 3 |};
                 stmt_query :=
                   default "" (sql_get "GET_ANNOTATION" "objects") |}
              (Some live_annotation) eq_refl) as (sql & Hsql & Hrun).
  rewrite Hrun.
  - reflexivity.
  - vm_compute in Hsql. injection Hsql as <-. vm_compute. reflexivity.
  - reflexivity.
  - intros record [= <-]. exists VNone. split; [reflexivity|discriminate].
Defined.

Lemma reads_return_the_answer_of_the_driver_witness :
  (run (keys (pg := backend_with_children) "P") (sample_state ∅)).1
  = Returned child_rows
  ∧ (run (get_child (pg := backend_counting 1) "P" "a") (sample_state ∅)).1
    = Returned None.
Proof.
  split.
  - destruct (reads_return_the_answer_of_the_driver
                (pg := backend_with_children) (sample_state ∅)
                "P" "a" "b1" ["a"] 0 eq_refl) as ((sql & _ & Hrun) & _).
    rewrite Hrun. reflexivity.
  - destruct (reads_return_the_answer_of_the_driver
                (pg := backend_counting 1) (sample_state ∅)
                "P" "a" "b1" ["a"] 0 eq_refl)
      as (_ & (sql & _ & Hrun) & _).
    rewrite Hrun. reflexivity.
Defined.

(** The statements as the database receives them, for the table [objects]
    and oids of at most 87 characters. *)
Example update_statement_for_objects :
  sql_get "UPDATE" "objects" = Some "WITH rows AS (

UPDATE objects
SET
    tid = $2::int,
    state_size = $3::int,
    part = $4::int,
    resource = $5::boolean,
    of = $6::varchar(87),
    otid = $7::int,
    parent_id = $8::varchar(87),
    id = $9::text,
    type = $10::text,
    json = $11::json,
    state = $12::bytea
WHERE
    zoid = $1::varchar(87) AND tid = $7::int
    RETURNING 1
)
SELECT count(*) FROM rows".
Proof. vm_compute. reflexivity. Qed.

Example conflicts_on_oids_statement_for_objects :
  sql_get "TXN_CONFLICTS_ON_OIDS" "objects" = Some "
    SELECT zoid, tid, state_size, resource, type, id
    FROM objects
    WHERE tid > $1 AND zoid = ANY($2)".
Proof. vm_compute. reflexivity. Qed.

(** A session lost while a restart is under way: the second failure of
    [pool.acquire] waits for the storage lock that the restart holds. *)
Example open_blocks_on_second_failure :
  (run (open (pg := backend_without_sessions 101%float "pool is closed") 2)
       (sample_state ∅)).1
  = Blocked.
Proof. vm_compute. reflexivity. Qed.

(** [read_blob_chunks] for the blob "b1": the query is the text "b1". *)
Example read_blob_chunks_b1 :
  history (run (read_blob_chunks (pg := backend_counting 1) "b1")
             (sample_state ∅)).2
  = [EvCursor {| conn_id := 3 |} "b1" []].
Proof. reflexivity. Qed.
